(** * Festival schedule viewer: the time normaliser and the schedule filter

    A shallow embedding of the script block of the schedule page
    (the Svelte component with the list view, the search box and the two
    stage toggles), together with the properties its specification
    states about it.

    The page is JavaScript.  Its values are modelled as follows.

    - Strings are [string] (ASCII code units; the schedule's times, days
      and stage names are ASCII).
    - Numbers are [JS.number]: an integer or [NaN].  Every number the
      page computes from a well-formed schedule is an integer far below
      2^53, where double arithmetic is exact.
    - [undefined] is [None] where a value is a number or missing, and
      [JS.Undefined] where a property read can return other things.
    - Object literals used as tables ([livestreamLinks], [dayOrder]) are
      finite maps of their own properties; a read [obj[key]] that finds
      no own property goes on to [Object.prototype] ([JS.inherited]).
    - A [try]/[catch] around a library call is a [JS.completion]. *)

From Stdlib Require Import ZArith Ascii String DecimalString Sorted.
From stdpp Require Import list strings gmap.

Local Open Scope string_scope.
Local Open Scope Z_scope.

(** ** JavaScript primitives used by the page *)

Module JS.

(** *** Numbers *)

Inductive number : Type :=
| Int (z : Z)
| NaN.

Definition add (a b : number) : number :=
  match a, b with
  | Int x, Int y => Int (x + y)
  | _, _ => NaN
  end.

Definition sub (a b : number) : number :=
  match a, b with
  | Int x, Int y => Int (x - y)
  | _, _ => NaN
  end.

Definition mul (a b : number) : number :=
  match a, b with
  | Int x, Int y => Int (x * y)
  | _, _ => NaN
  end.

(** [Math.floor(a / b)] for a positive integer literal [b]. *)
Definition floor_div (a : number) (b : Z) : number :=
  match a with
  | Int x => Int (x / b)
  | NaN => NaN
  end.

(** [a % b]: the remainder takes the sign of the dividend. *)
Definition rem (a : number) (b : Z) : number :=
  match a with
  | Int x => Int (Z.rem x b)
  | NaN => NaN
  end.

(** Relational operators: every comparison with [NaN] is false. *)
Definition lt (a b : number) : bool :=
  match a, b with
  | Int x, Int y => x <? y
  | _, _ => false
  end.

Definition ge (a b : number) : bool :=
  match a, b with
  | Int x, Int y => y <=? x
  | _, _ => false
  end.

(** [ToNumber] on a value that may be [undefined]. *)
Definition of_undefined (v : option number) : number :=
  match v with
  | Some n => n
  | None => NaN
  end.

(** *** Strings *)

Definition is_digit (c : ascii) : bool :=
  match Ascii.is_nat c with
  | Some _ => true
  | None => false
  end.

Definition digit_value (c : ascii) : Z :=
  match Ascii.is_nat c with
  | Some d => Z.of_nat d
  | None => 0
  end.

(** White space stripped by [trim] (ASCII: TAB, LF, VT, FF, CR, SP). *)
Definition is_white (c : ascii) : bool := Ascii.is_space c.

Fixpoint trimStart (s : string) : string :=
  match s with
  | String c s' => if is_white c then trimStart s' else s
  | EmptyString => EmptyString
  end.

Fixpoint trimEnd (s : string) : string :=
  match s with
  | String c s' =>
      match trimEnd s' with
      | EmptyString => if is_white c then EmptyString else String c EmptyString
      | t => String c t
      end
  | EmptyString => EmptyString
  end.

Definition trim (s : string) : string := trimEnd (trimStart s).

Definition lower (c : ascii) : ascii :=
  let n := nat_of_ascii c in
  if ((65 <=? n) && (n <=? 90))%nat then ascii_of_nat (n + 32) else c.

Fixpoint toLowerCase (s : string) : string :=
  match s with
  | String c s' => String (lower c) (toLowerCase s')
  | EmptyString => EmptyString
  end.

(** [s.includes(t)]: [t] occurs in [s] at some position. *)
Fixpoint includes (s t : string) : bool :=
  String.prefix t s
  || match s with
     | String _ s' => includes s' t
     | EmptyString => false
     end.

(** [s.split(sep)] for a one-character separator. *)
Fixpoint split (sep : ascii) (s : string) : list string :=
  match s with
  | String c s' =>
      if Ascii.eqb c sep then EmptyString :: split sep s'
      else match split sep s' with
           | w :: ws => String c w :: ws
           | [] => [String c EmptyString]
           end
  | EmptyString => [EmptyString]
  end.

Fixpoint digits (acc : Z) (s : string) : option Z :=
  match s with
  | String c s' =>
      if is_digit c then digits (10 * acc + digit_value c) s' else None
  | EmptyString => Some acc
  end.

Definition unsigned_decimal (s : string) : option Z :=
  match s with
  | EmptyString => None
  | _ => digits 0 s
  end.

(** [Number(s)] on a string: white space is trimmed, the empty string
    is [0], an optionally signed run of decimal digits is its value.
    Everything else is [NaN] here; literals with a fraction, an
    exponent, a radix prefix or [Infinity] are not integers and do not
    occur in "HH:MM" times. *)
Definition Number (s : string) : number :=
  match trim s with
  | EmptyString => Int 0
  | String "-" r =>
      match unsigned_decimal r with
      | Some z => Int (- z)
      | None => NaN
      end
  | String "+" r =>
      match unsigned_decimal r with
      | Some z => Int z
      | None => NaN
      end
  | t =>
      match unsigned_decimal t with
      | Some z => Int z
      | None => NaN
      end
  end.

(** [String(n)] on a number. *)
Definition decimal_of_nat (n : nat) : string :=
  NilZero.string_of_uint (Nat.to_uint n).

Definition toString (n : number) : string :=
  match n with
  | Int z =>
      if z <? 0 then String "-" (decimal_of_nat (Z.to_nat (- z)))
      else decimal_of_nat (Z.to_nat z)
  | NaN => "NaN"
  end.

(** [s.padStart(n, pad)] for a one-character pad. *)
Definition padStart (n : nat) (pad : ascii) (s : string) : string :=
  String.append (string_of_list_ascii (repeat pad (n - String.length s)%nat)) s.

(** *** Arrays *)

(** [[...new Set(l)]]: the distinct elements in order of first
    occurrence. *)
Fixpoint distinct_go (seen : list string) (l : list string) : list string :=
  match l with
  | x :: l' =>
      if bool_decide (x ∈ seen) then distinct_go seen l'
      else x :: distinct_go (x :: seen) l'
  | [] => []
  end.

Definition distinct (l : list string) : list string := distinct_go [] l.

(** The comparator's result as the sort sees it: [NaN] counts as [0]. *)
Definition sortCompare {A} (cmp : A → A → number) (x y : A) : Z :=
  match cmp x y with
  | Int z => z
  | NaN => 0
  end.

(** [Array.prototype.sort(cmp)].  The language requires the sort to be
    stable; for a consistent comparator every conforming engine returns
    the same array.  The model is the stable insertion sort: an element
    goes in front of the first one it does not compare greater than.
    For a comparator that is not consistent the language leaves the
    order to the engine; the result is a rearrangement of the array in
    every engine, and the model gives one such rearrangement. *)
Fixpoint sort_insert {A} (cmp : A → A → number) (x : A) (l : list A) : list A :=
  match l with
  | y :: l' =>
      if sortCompare cmp x y <=? 0 then x :: y :: l'
      else y :: sort_insert cmp x l'
  | [] => [x]
  end.

Fixpoint sort {A} (cmp : A → A → number) (l : list A) : list A :=
  match l with
  | x :: l' => sort_insert cmp x (sort cmp l')
  | [] => []
  end.

(** The default comparator of [sort()] on strings: code-unit order. *)
Definition defaultCompare (x y : string) : number :=
  match String.compare x y with
  | Lt => Int (-1)
  | Eq => Int 0
  | Gt => Int 1
  end.

(** *** Property reads on object literals

    [obj[key]] looks among the own properties of [obj] and then along
    its prototype chain.  The prototype of an object literal is
    [Object.prototype], so a key that is not an own property still reads
    one of the methods of [Object.prototype] or, through the accessor
    [__proto__], the prototype itself.  The values such a read can
    return on this page: *)
Inductive value : Type :=
| Undefined
| Null
| Num (z : Z)
| Str (s : string)
| Method (name : string)
| ObjectPrototype.

(** The function-valued properties of [Object.prototype]. *)
Definition objectPrototypeMethods : list string :=
  [ "constructor"; "hasOwnProperty"; "isPrototypeOf"; "propertyIsEnumerable";
    "toLocaleString"; "toString"; "valueOf";
    "__defineGetter__"; "__defineSetter__";
    "__lookupGetter__"; "__lookupSetter__" ].

Definition isObjectPrototypeMethod (key : string) : bool :=
  existsb (String.eqb key) objectPrototypeMethods.

(** [obj[key]] for an object literal [obj] that has no own property
    [key]. *)
Definition inherited (key : string) : value :=
  if isObjectPrototypeMethod key then Method key
  else if String.eqb key "__proto__" then ObjectPrototype
  else Undefined.

(** [Object.prototype[key]].  The prototype of [Object.prototype] is
    [null]. *)
Definition ofObjectPrototype (key : string) : value :=
  if isObjectPrototypeMethod key then Method key
  else if String.eqb key "__proto__" then Null
  else Undefined.

(** Strict equality [===] on these values; functions and objects are
    compared by identity. *)
Definition strictEquals (a b : value) : bool :=
  match a, b with
  | Undefined, Undefined | Null, Null | ObjectPrototype, ObjectPrototype => true
  | Num x, Num y => x =? y
  | Str x, Str y => String.eqb x y
  | Method f, Method g => String.eqb f g
  | _, _ => false
  end.

(** [ToNumber].  A function and [Object.prototype] convert through
    their string form, which is not numeric. *)
Definition toNumber (v : value) : number :=
  match v with
  | Num z => Int z
  | Null => Int 0
  | Str s => Number s
  | Undefined | Method _ | ObjectPrototype => NaN
  end.

(** [ToBoolean], as [{#if v}] applies it. *)
Definition truthy (v : value) : bool :=
  match v with
  | Undefined | Null => false
  | Num z => negb (z =? 0)
  | Str s => negb (String.eqb s "")
  | Method _ | ObjectPrototype => true
  end.

(** *** Completions of a call that may throw *)

Inductive completion (A : Type) : Type :=
| Normal (v : A)
| Throw (e : string).

Arguments Normal {A} v.
Arguments Throw {A} e.

End JS.

#[global] Instance value_eq_dec : EqDecision JS.value.
Proof. solve_decision. Defined.

(** ** The schedule page *)

(** One row of [schedule.json].  [start] and [end] may be missing: the
    time functions take [string | undefined]. *)
Record performance : Type := Performance {
  artist : string;
  stage : string;
  day : string;
  start : option string;
  end_ : option string
}.

Definition festivalTimeZone : string := "America/Los_Angeles".

(** An entry of the livestream table: one video id, or one per day. *)
Inductive linkData : Type :=
| Single (id : string)
| PerDay (ids : gmap string string).

Definition livestreamLinks : gmap string linkData :=
  list_to_map
    [ ("Coachella Stage", Single "Y2FzDMuJ5pI");
      ("Outdoor Theatre", Single "WxwawRL_nY8");
      ("Sahara", Single "afO7r8TQTSw");
      ("Mojave", Single "BajnpDN6vG8");
      ("Gobi", Single "Kg-KswkXoBg");
      ("Sonora", Single "TdHrgLciYWw");
      ("Quasar", PerDay (list_to_map
         [ ("Friday", "1MOJG5VTh-Y");
           ("Saturday", "SreThbvUUI8");
           ("Sunday", "jKWRY1btTOs") ])) ].

(** *** Time conversion *)

Definition timeToMinutes (timeStr : option string) : JS.number :=
  match timeStr with
  | None | Some EmptyString => JS.Int 0
  | Some s =>
      let parts := JS.Number <$> JS.split ":" s in
      let hours := JS.of_undefined (parts !! 0%nat) in
      let minutes := JS.of_undefined (parts !! 1%nat) in
      if JS.lt hours (JS.Int 5)
      then JS.add (JS.mul (JS.add hours (JS.Int 24)) (JS.Int 60)) minutes
      else JS.add (JS.mul hours (JS.Int 60)) minutes
  end.

(** The "HH:mm:00" part of the date string. *)
Definition timeOfDay (minutesFromMidnight : JS.number) : string :=
  let hours := JS.rem (JS.floor_div minutesFromMidnight 60) 24 in
  let minutes := JS.rem minutesFromMidnight 60 in
  JS.padStart 2 "0" (JS.toString hours) +:+ ":" +:+
  JS.padStart 2 "0" (JS.toString minutes) +:+ ":00".

Definition dateStr (selectedDay : string) (minutesFromMidnight : JS.number) : string :=
  let baseDate :=
    if String.eqb selectedDay "Friday" then "2025-04-11"
    else if String.eqb selectedDay "Saturday" then "2025-04-12"
    else "2025-04-13" in
  let dateStrDate :=
    if JS.ge minutesFromMidnight (JS.Int 1440)
    then (if String.eqb selectedDay "Friday" then "2025-04-12"
          else if String.eqb selectedDay "Saturday" then "2025-04-13"
          else "2025-04-14")
    else baseDate in
  dateStrDate +:+ "T" +:+ timeOfDay minutesFromMidnight.

Definition fallbackDateStr (minutesFromMidnight : JS.number) : string :=
  "2025-04-11" +:+ "T" +:+ timeOfDay minutesFromMidnight.

Section Display.

(** The two date-fns-tz functions the page imports.  Either may throw. *)
Context {Date : Type}.
Variable fromZonedTime : string → string → JS.completion Date.
Variable formatInTimeZone : Date → string → string → JS.completion string.

(** The result comes with what was written to [console.error]. *)
Definition createFestivalDate (selectedDay : string)
    (minutesFromMidnight : JS.number) : list string * JS.completion Date :=
  match fromZonedTime (dateStr selectedDay minutesFromMidnight) festivalTimeZone with
  | JS.Normal d => ([], JS.Normal d)
  | JS.Throw e =>
      ([dateStr selectedDay minutesFromMidnight],
       fromZonedTime (fallbackDateStr minutesFromMidnight) festivalTimeZone)
  end.

Definition formatSliderTime (selectedDay selectedTimezone : string)
    (minutes : JS.number) : JS.completion string :=
  match snd (createFestivalDate selectedDay minutes) with
  | JS.Normal festivalDate =>
      formatInTimeZone festivalDate
        (if String.eqb selectedTimezone "" then festivalTimeZone else selectedTimezone)
        "h:mm a"
  | JS.Throw e => JS.Throw e
  end.

Definition formatPerformanceTime (selectedDay selectedTimezone : string)
    (timeStr : option string) : JS.completion string :=
  match timeStr with
  | None | Some EmptyString => JS.Normal "-"
  | Some _ => formatSliderTime selectedDay selectedTimezone (timeToMinutes timeStr)
  end.

End Display.

(** *** Livestream links *)

(** [livestreamLinks[stageName]] is a string, an object or something
    else; only the first two are used.  The object is the per-day entry
    of the table or, for the stage name [__proto__], [Object.prototype]. *)
Definition getLivestreamLink (stageName selectedDay : string) : JS.value :=
  match livestreamLinks !! stageName with
  | Some (Single id) => JS.Str id
  | Some (PerDay ids) =>
      match ids !! selectedDay with
      | Some id => JS.Str id
      | None => JS.inherited selectedDay
      end
  | None =>
      match JS.inherited stageName with
      | JS.ObjectPrototype => JS.ofObjectPrototype selectedDay
      | _ => JS.Undefined
      end
  end.

(** *** Filtering *)

Definition stagesForDay (schedule : list performance) (selectedDay : string)
    : list string :=
  JS.sort JS.defaultCompare
    (JS.distinct (stage <$> filter (λ p, day p = selectedDay) schedule)).

(** The callback of the [performancesAtTime] filter. *)
Definition atTime (selectedDay : string) (selectedTime : Z) (p : performance) : bool :=
  if negb (String.eqb (day p) selectedDay) then false
  else
    let startMinutes := timeToMinutes (start p) in
    let endMinutes := timeToMinutes (end_ p) in
    JS.ge (JS.Int selectedTime) startMinutes && JS.lt (JS.Int selectedTime) endMinutes.

Definition performancesAtTime (schedule : list performance) (selectedDay : string)
    (selectedTime : Z) : list performance :=
  filter (λ p, atTime selectedDay selectedTime p) schedule.

(** The [stages] list the first reactive block computes. *)
Definition stages (schedule : list performance) (selectedDay : string)
    (selectedTime : Z) (hideEmptyStages hideNoStreamStages : bool) : list string :=
  let filteredStages := stagesForDay schedule selectedDay in
  let filteredStages :=
    if hideEmptyStages then
      let stagesWithPerformances :=
        stage <$> performancesAtTime schedule selectedDay selectedTime in
      filter (λ s, s ∈ stagesWithPerformances) filteredStages
    else filteredStages in
  if hideNoStreamStages then
    let filteredStages := filter (λ s, s ≠ "Yuma") filteredStages in
    if selectedTime <? 960 then []
    else filter (λ s, getLivestreamLink s selectedDay ≠ JS.Undefined) filteredStages
  else filteredStages.

(** *** The chronological list *)

Definition dayOrder : gmap string Z :=
  list_to_map [ ("Friday", 0); ("Saturday", 1); ("Sunday", 2) ].

(** [dayOrder[d]]. *)
Definition dayRank (d : string) : JS.value :=
  match dayOrder !! d with
  | Some r => JS.Num r
  | None => JS.inherited d
  end.

(** The comparator of the chronological sort. *)
Definition byDayThenStart (a b : performance) : JS.number :=
  if negb (JS.strictEquals (dayRank (day a)) (dayRank (day b)))
  then JS.sub (JS.toNumber (dayRank (day a))) (JS.toNumber (dayRank (day b)))
  else JS.sub (timeToMinutes (start a)) (timeToMinutes (start b)).

Definition chronologicalPerformances (schedule : list performance)
    : list performance :=
  JS.sort byDayThenStart schedule.

(** The callback of the search filter. *)
Definition matchesSearch (searchTerm : string) (p : performance) : bool :=
  match JS.trim searchTerm with
  | EmptyString => true
  | _ => JS.includes (JS.toLowerCase (artist p)) (JS.toLowerCase searchTerm)
  end.

Definition filteredChronologicalPerformances
    (chronological : list performance) (searchTerm : string) : list performance :=
  filter (λ p, matchesSearch searchTerm p) chronological.

(** ** Vocabulary of the specification *)

(** The character of a decimal digit, and the time string "HH:MM" with
    the four given digits. *)
Definition digit (d : nat) : ascii := ascii_of_nat (48 + d).

Definition clock (h1 h2 m1 m2 : nat) : string :=
  String (digit h1) (String (digit h2)
    (String ":" (String (digit m1) (String (digit m2) EmptyString)))).

(** A performance is current on [d] at minute [m]: its day is [d] and
    [m] lies in the half-open interval from its start to its end. *)
Definition isCurrent (d : string) (m : Z) (p : performance) : Prop :=
  day p = d ∧
  ∃ s e, timeToMinutes (start p) = JS.Int s ∧
         timeToMinutes (end_ p) = JS.Int e ∧ s ≤ m < e.

(** A performance the chronological comparator can rank: its day is in
    [dayOrder] and its start time normalises to a number.  Every row with
    a festival day and an "HH:MM" start is of this kind. *)
Definition wellFormed (p : performance) : Prop :=
  is_Some (dayOrder !! day p) ∧ timeToMinutes (start p) ≠ JS.NaN.

(** Ascending order on the pair (day rank, normalised start minutes). *)
Definition chronLe (p q : performance) : Prop :=
  ∃ rp rq mp mq,
    dayOrder !! day p = Some rp ∧ dayOrder !! day q = Some rq ∧
    timeToMinutes (start p) = JS.Int mp ∧ timeToMinutes (start q) = JS.Int mq ∧
    (rp < rq ∨ (rp = rq ∧ mp ≤ mq)).

(** [q] has the same day and the same start minutes as [p]. *)
Definition sameSlot (p q : performance) : Prop :=
  day q = day p ∧ timeToMinutes (start q) = timeToMinutes (start p).

(** The string consists of white space only (the empty string included). *)
Fixpoint allWhite (s : string) : bool :=
  match s with
  | String c s' => JS.is_white c && allWhite s'
  | EmptyString => true
  end.

(** [term] occurs in [name] when letter case is ignored. *)
Definition containsIgnoringCase (name term : string) : Prop :=
  ∃ pre post, JS.toLowerCase name = pre +:+ JS.toLowerCase term +:+ post.

(** An instance of the two date-fns-tz functions with the behaviour the
    library has on a date string it cannot read: [fromZonedTime] does
    not throw but returns an invalid date, here [None], and
    [formatInTimeZone] throws a [RangeError] on an invalid date. *)
Definition lenientFromZonedTime (s tz : string) : JS.completion (option string) :=
  match JS.unsigned_decimal (substring 11 2 s),
        JS.unsigned_decimal (substring 14 2 s) with
  | Some _, Some _ => JS.Normal (Some (s +:+ " " +:+ tz))
  | _, _ => JS.Normal None
  end.

Definition formatValidDate (d : option string) (tz fmt : string)
    : JS.completion string :=
  match d with
  | Some t => JS.Normal (t +:+ " as " +:+ fmt +:+ " in " +:+ tz)
  | None => JS.Throw "RangeError: Invalid time value"
  end.

(** A key that reads [undefined] on an object literal without such an
    own property: it names no property of [Object.prototype]. *)
Definition ordinaryKey (key : string) : Prop := JS.inherited key = JS.Undefined.

(** The string has ASCII characters only. *)
Fixpoint asciiOnly (s : string) : bool :=
  match s with
  | String c s' => (nat_of_ascii c <? 128)%nat && asciiOnly s'
  | EmptyString => true
  end.

(** A Friday on which the start of the middle act is not announced. *)
Definition tbaSchedule : list performance :=
  [ Performance "Late" "Sahara" "Friday" (Some "15:00") (Some "16:00");
    Performance "Unannounced" "Gobi" "Friday" (Some "TBA") None;
    Performance "Early" "Mojave" "Friday" (Some "12:00") (Some "13:00") ].

(** A small schedule with two acts that start together on Friday at
    23:50, one act after midnight and one on Saturday. *)
Definition demoSchedule : list performance :=
  [ Performance "Late Act" "Sahara" "Saturday" (Some "12:00") (Some "13:00");
    Performance "dj snake" "Sahara" "Friday" (Some "23:50") (Some "00:20");
    Performance "Night Owl" "Yuma" "Friday" (Some "00:20") (Some "01:30");
    Performance "DJ Twin" "Gobi" "Friday" (Some "23:50") (Some "00:40") ].

#[global] Instance number_eq_dec : EqDecision JS.number.
Proof. solve_decision. Defined.

#[global] Instance sameSlot_dec p q : Decision (sameSlot p q).
Proof. unfold sameSlot. apply _. Defined.

#[global] Instance isCurrent_dec d m p : Decision (isCurrent d m p).
Proof.
  unfold isCurrent.
  destruct (timeToMinutes (start p)) as [s|];
    [destruct (timeToMinutes (end_ p)) as [e|]|].
  - destruct (decide (day p = d ∧ s ≤ m < e)) as [Hy|Hn]; [left|right].
    + split; [apply Hy|]. exists s, e. split_and!; (done || apply Hy).
    + intros [Hd (s' & e' & [= <-] & [= <-] & Hm)]. by apply Hn.
  - right. by intros [_ (? & ? & _ & [=] & _)].
  - right. by intros [_ (? & ? & [=] & _)].
Defined.

#[global] Instance starts_with_dec t s : Decision (∃ post, s = t +:+ post).
Proof.
  revert s. induction t as [|a t IH]; intros s.
  - left. by exists s.
  - destruct s as [|b s]; [right; by intros [? [=]]|].
    destruct (decide (a = b)) as [->|Hne].
    + destruct (IH s) as [Hy|Hn]; [left|right].
      * destruct Hy as [post ->]. by exists post.
      * intros [post [= Hp]]. apply Hn. by exists post.
    + right. by intros [post [= ? _]].
Defined.

#[global] Instance occurs_dec s t : Decision (∃ pre post, s = pre +:+ t +:+ post).
Proof.
  induction s as [|c s IH].
  - destruct (starts_with_dec t EmptyString) as [Hy|Hn]; [left|right].
    + destruct Hy as [post Hp]. by exists EmptyString, post.
    + intros (pre & post & Hp). destruct pre; [|done]. apply Hn. by exists post.
  - destruct (starts_with_dec t (String c s)) as [Hy|Hn].
    + left. destruct Hy as [post Hp]. by exists EmptyString, post.
    + destruct IH as [Hy|Hn']; [left|right].
      * destruct Hy as (pre & post & ->). by exists (String c pre), post.
      * intros (pre & post & Hp). destruct pre as [|c' pre].
        -- apply Hn. by exists post.
        -- injection Hp as -> Hp. apply Hn'. by exists pre, post.
Defined.

#[global] Instance containsIgnoringCase_dec name term :
  Decision (containsIgnoringCase name term).
Proof. unfold containsIgnoringCase. apply _. Defined.

(** ** The rest of the page *)

(** [Math.round(a / b)] for integers [a] and a positive integer literal
    [b]: the quotient rounded to the nearest integer, halves upwards. *)
Definition round_div (a b : Z) : Z := (2 * a + b) / (2 * b).

(** What the page reads from "now" in the festival zone: [getHours()],
    [getMinutes()] and [getDay()] (Sunday is 0, Saturday is 6). *)
Record zonedNow : Type := ZonedNow {
  getHours : Z;
  getMinutes : Z;
  getDay : Z
}.

(** [setInitialTimeAndDay]: the new [selectedTime] and [selectedDay]. *)
Definition setInitialTimeAndDay (nowInFestivalTime : zonedNow) : Z * string :=
  let currentHourFestival := getHours nowInFestivalTime in
  let currentMinuteFestival := getMinutes nowInFestivalTime in
  let currentTimeMinutesFestival :=
    currentHourFestival * 60 + currentMinuteFestival in
  let currentTimeMinutesFestival :=
    if currentHourFestival <? 5 then currentTimeMinutesFestival + 24 * 60
    else currentTimeMinutesFestival in
  let sliderMin := 12 * 60 in
  let sliderMax := (24 + 2) * 60 in
  let selectedTime :=
    if (sliderMin <=? currentTimeMinutesFestival)
       && (currentTimeMinutesFestival <=? sliderMax)
    then round_div currentTimeMinutesFestival 5 * 5
    else 15 * 60 in
  let dayOfWeek := getDay nowInFestivalTime in
  let hour := getHours nowInFestivalTime in
  let selectedDay :=
    if ((dayOfWeek =? 6) && (3 <=? hour)) || ((dayOfWeek =? 0) && (hour <? 3))
    then "Saturday"
    else if ((dayOfWeek =? 0) && (3 <=? hour)) || ((dayOfWeek =? 1) && (hour <? 3))
    then "Sunday"
    else "Friday" in
  (selectedTime, selectedDay).

(** The day the earlier version of the page selects in [onMount]: before
    05:00 the day index steps back by one. *)
Definition earlierInitialDay (nowInFestivalTime : zonedNow) : string :=
  let currentHourFestival := getHours nowInFestivalTime in
  let currentDayIndexFestival := getDay nowInFestivalTime in
  let currentDayIndexFestival :=
    if currentHourFestival <? 5
    then (if currentDayIndexFestival =? 0 then 6 else currentDayIndexFestival - 1)
    else currentDayIndexFestival in
  if currentDayIndexFestival =? 5 then "Friday"
  else if currentDayIndexFestival =? 6 then "Saturday"
  else if currentDayIndexFestival =? 0 then "Sunday"
  else "Friday".

(** The performance a row of the grid shows for a stage:
    [filteredPerformances.find(p => p.stage === stage)]. *)
Definition performanceFor (filteredPerformances : list performance)
    (stageName : string) : option performance :=
  List.find (λ p, String.eqb (stage p) stageName) filteredPerformances.

(** *** The theme store *)

(** The part of the browser the store touches: [localStorage] and the
    attributes of the document element. *)
Record browserEnv : Type := BrowserEnv {
  localStorage : gmap string string;
  attributes : gmap string string
}.

(** The store's value, and the browser when there is one. *)
Record themeStore : Type := ThemeStore {
  themeValue : string;
  browser : option browserEnv
}.

(** [browser && localStorage.getItem('theme') || 'light']. *)
Definition initialTheme (env : option browserEnv) : string :=
  match env with
  | Some b =>
      match localStorage b !! "theme" with
      | Some EmptyString | None => "light"
      | Some t => t
      end
  | None => "light"
  end.

(** What the subscriber of the store does with a value. *)
Definition persist (value : string) (b : browserEnv) : browserEnv :=
  {| localStorage := <["theme" := value]> (localStorage b);
     attributes := <["data-theme" := value]> (attributes b) |}.

(** Loading the module [stores]: the store is created with the initial
    theme and, in the browser, subscribed to; a Svelte store runs a new
    subscriber at once with the current value. *)
Definition loadStore (env : option browserEnv) : themeStore :=
  let theme := initialTheme env in
  {| themeValue := theme; browser := persist theme <$> env |}.

(** [theme.set(v)]: a Svelte store ignores a value equal to the current
    one, and otherwise stores it and runs the subscribers. *)
Definition setTheme (v : string) (st : themeStore) : themeStore :=
  if String.eqb (themeValue st) v then st
  else {| themeValue := v; browser := persist v <$> browser st |}.

(** [toggleTheme], that is [theme.update(current => ...)]. *)
Definition toggleTheme (st : themeStore) : themeStore :=
  setTheme (if String.eqb (themeValue st) "light" then "dark" else "light") st.

(** Loading the page again: [localStorage] is kept, the document is new. *)
Definition reload (st : themeStore) : themeStore :=
  loadStore ((λ b, {| localStorage := localStorage b; attributes := ∅ |})
               <$> browser st).

(** The browser holds the value of the store: under the key [theme] of
    [localStorage] and in the attribute [data-theme]. *)
Definition persisted (st : themeStore) : Prop :=
  match browser st with
  | Some b =>
      localStorage b !! "theme" = Some (themeValue st) ∧
      attributes b !! "data-theme" = Some (themeValue st)
  | None => True
  end.

(** ** Facts about the primitives *)

Lemma digit_not_colon d : (d < 10)%nat → Ascii.eqb (digit d) ":" = false.
Proof.
  intros Hd. do 10 (destruct d as [|d]; [reflexivity|]). lia.
Qed.

Lemma Number_two_digits a b :
  (a < 10)%nat → (b < 10)%nat →
  JS.Number (String (digit a) (String (digit b) EmptyString))
  = JS.Int (10 * Z.of_nat a + Z.of_nat b).
Proof.
  intros Ha Hb.
  do 10 (destruct a as [|a]; [do 10 (destruct b as [|b]; [reflexivity|]); lia|]).
  lia.
Qed.

Lemma split_clock h1 h2 m1 m2 :
  (h1 < 10)%nat → (h2 < 10)%nat → (m1 < 10)%nat → (m2 < 10)%nat →
  JS.split ":" (clock h1 h2 m1 m2)
  = [String (digit h1) (String (digit h2) EmptyString);
     String (digit m1) (String (digit m2) EmptyString)].
Proof.
  intros. unfold clock. cbn [JS.split].
  rewrite !digit_not_colon by done. reflexivity.
Qed.

Lemma prefix_spec t s :
  String.prefix t s = true ↔ ∃ post, s = t +:+ post.
Proof.
  revert s. induction t as [|a t IH]; intros s.
  { destruct s; cbn; (split; [intros _; eexists; reflexivity|done]). }
  destruct s as [|b s]; cbn.
  { split; [done|]. by intros [post [=]]. }
  destruct (Ascii.ascii_dec a b) as [->|Hne].
  - rewrite IH. split; intros [post Hp]; exists post.
    + by rewrite Hp.
    + by injection Hp.
  - split; [done|]. intros [post Hp]. injection Hp. congruence.
Qed.

Lemma includes_spec s t :
  JS.includes s t = true ↔ ∃ pre post, s = pre +:+ t +:+ post.
Proof.
  split.
  - induction s as [|c s IH]; cbn [JS.includes];
      rewrite orb_true_iff, prefix_spec.
    + intros [[post Hp]|[=]]. by exists EmptyString, post.
    + intros [[post Hp]|Hin]; [by exists EmptyString, post|].
      destruct (IH Hin) as (pre & post & ->). by exists (String c pre), post.
  - intros (pre & post & ->).
    induction pre as [|c pre IH].
    + change (EmptyString +:+ t +:+ post) with (t +:+ post).
      assert (String.prefix t (t +:+ post) = true) as Hp
        by (apply prefix_spec; by exists post).
      destruct (t +:+ post); cbn [JS.includes]; by rewrite Hp.
    + change (String c pre +:+ t +:+ post) with (String c (pre +:+ t +:+ post)).
      cbn [JS.includes]. rewrite IH. apply orb_true_r.
Qed.

Lemma trimEnd_empty s : JS.trimEnd s = EmptyString ↔ allWhite s = true.
Proof.
  induction s as [|c s IH]; cbn; [done|].
  rewrite andb_true_iff, <- IH.
  destruct (JS.trimEnd s), (JS.is_white c); intuition congruence.
Qed.

Lemma allWhite_trimStart s : allWhite (JS.trimStart s) = allWhite s.
Proof.
  induction s as [|c s IH]; cbn; [done|].
  destruct (JS.is_white c) eqn:E; cbn; [done|]. by rewrite E.
Qed.

Lemma trim_empty s : JS.trim s = EmptyString ↔ allWhite s = true.
Proof. unfold JS.trim. by rewrite trimEnd_empty, allWhite_trimStart. Qed.

(** ** The sort on a comparator that agrees with a total preorder *)

Section SortFacts.

Context {A : Type} (cmp : A → A → JS.number).

Lemma sort_insert_Permutation x l : JS.sort_insert cmp x l ≡ₚ x :: l.
Proof.
  induction l as [|y l IH]; cbn; [done|].
  destruct (JS.sortCompare cmp x y <=? 0); [done|].
  rewrite IH. apply Permutation_swap.
Qed.

Lemma sort_Permutation l : JS.sort cmp l ≡ₚ l.
Proof.
  induction l as [|x l IH]; cbn; [done|].
  by rewrite sort_insert_Permutation, IH.
Qed.

(** The comparator is only required to behave on a domain [D] of
    well-formed elements. *)
Context (D : A → Prop) (le : relation A).
Hypothesis le_trans : ∀ x y z, D x → D y → D z → le x y → le y z → le x z.
Hypothesis le_total : ∀ x y, D x → D y → le x y ∨ le y x.
Hypothesis cmp_le : ∀ x y, D x → D y → JS.sortCompare cmp x y ≤ 0 ↔ le x y.

Lemma sort_insert_sorted x l :
  D x → Forall D l → StronglySorted le l →
  StronglySorted le (JS.sort_insert cmp x l).
Proof.
  intros Hx HD Hs. induction Hs as [|y l Hs IH Hy]; cbn.
  { repeat constructor. }
  apply Forall_cons in HD as [Dy HD].
  destruct (Z.leb_spec (JS.sortCompare cmp x y) 0) as [Hc|Hc].
  - apply cmp_le in Hc; [|done..].
    constructor; [by constructor|].
    constructor; [done|].
    rewrite Forall_forall in Hy, HD. apply Forall_forall. intros z Hz.
    apply le_trans with y; auto.
  - constructor; [by apply IH|].
    rewrite sort_insert_Permutation. constructor; [|done].
    destruct (le_total x y) as [Hxy|Hyx]; [done..| |done].
    apply cmp_le in Hxy; [lia|done..].
Qed.

Lemma sort_sorted l : Forall D l → StronglySorted le (JS.sort cmp l).
Proof.
  induction l as [|x l IH]; cbn; intros HD; [constructor|].
  apply Forall_cons in HD as [Dx HD].
  apply sort_insert_sorted; [done| |by apply IH].
  by rewrite sort_Permutation.
Qed.

Lemma sort_fixed l : Forall D l → StronglySorted le l → JS.sort cmp l = l.
Proof.
  intros HD Hs. induction Hs as [|x l Hs IH Hx]; cbn; [done|].
  apply Forall_cons in HD as [Dx HD].
  rewrite IH by done.
  destruct l as [|y l]; cbn; [done|].
  apply Forall_cons in HD as [Dy HD]. apply Forall_cons in Hx as [Hxy _].
  apply cmp_le in Hxy; [|done..].
  destruct (Z.leb_spec (JS.sortCompare cmp x y) 0); [done|lia].
Qed.

Lemma sort_idempotent l :
  Forall D l → JS.sort cmp (JS.sort cmp l) = JS.sort cmp l.
Proof.
  intros HD. apply sort_fixed; [by rewrite sort_Permutation|by apply sort_sorted].
Qed.

(** Stability: elements that the order cannot tell apart keep their
    relative order.  [P] picks out one class of such elements. *)
Lemma sort_insert_stable (P : A → Prop) `{!∀ x, Decision (P x)} x l :
  D x → Forall D l →
  (∀ y z, D y → D z → P y → P z → le y z) →
  filter P (JS.sort_insert cmp x l) = filter P (x :: l).
Proof.
  intros Dx HD HP. induction l as [|y l IH]; cbn; [done|].
  apply Forall_cons in HD as [Dy HD].
  destruct (Z.leb_spec (JS.sortCompare cmp x y) 0) as [Hc|Hc]; [done|].
  rewrite filter_cons, IH by done. rewrite !filter_cons.
  destruct (decide (P x)) as [Px|], (decide (P y)) as [Py|]; try done.
  exfalso. pose proof (HP x y Dx Dy Px Py) as Hxy.
  apply cmp_le in Hxy; [lia|done..].
Qed.

Lemma sort_stable (P : A → Prop) `{!∀ x, Decision (P x)} l :
  Forall D l →
  (∀ y z, D y → D z → P y → P z → le y z) →
  filter P (JS.sort cmp l) = filter P l.
Proof.
  intros HD HP. induction l as [|x l IH]; cbn; [done|].
  apply Forall_cons in HD as [Dx HD].
  rewrite sort_insert_stable; [|done|by rewrite sort_Permutation|done].
  by rewrite !filter_cons, IH.
Qed.

End SortFacts.

Lemma defaultCompare_le x y :
  JS.sortCompare JS.defaultCompare x y ≤ 0 ↔ String.le x y.
Proof.
  unfold JS.sortCompare, JS.defaultCompare, String.le, String.leb.
  destruct (String.compare x y); cbn; intuition (done || lia).
Qed.

Lemma distinct_go_elem_of seen l x :
  x ∈ JS.distinct_go seen l ↔ x ∈ l ∧ x ∉ seen.
Proof.
  revert seen. induction l as [|y l IH]; intros seen; cbn.
  { rewrite !elem_of_nil. tauto. }
  case_bool_decide as Hy.
  - rewrite IH, elem_of_cons. split; [tauto|].
    intros [[->|Hx] Hs]; [done|tauto].
  - rewrite !elem_of_cons, IH, elem_of_cons.
    destruct (decide (x = y)) as [->|Hne]; tauto.
Qed.

Lemma distinct_go_NoDup seen l : NoDup (JS.distinct_go seen l).
Proof.
  revert seen. induction l as [|y l IH]; intros seen; cbn; [constructor|].
  case_bool_decide; [done|].
  constructor; [|done].
  rewrite distinct_go_elem_of, elem_of_cons. intros [_ Hy]. apply Hy. by left.
Qed.

Lemma distinct_elem_of l x : x ∈ JS.distinct l ↔ x ∈ l.
Proof.
  unfold JS.distinct. rewrite distinct_go_elem_of, elem_of_nil. tauto.
Qed.

Lemma StronglySorted_sublist {A} (R : relation A) l1 l2 :
  sublist l1 l2 → StronglySorted R l2 → StronglySorted R l1.
Proof.
  induction 1 as [|x l1 l2 Hsub IH|x l1 l2 Hsub IH]; intros Hs; [done|..].
  - apply StronglySorted_inv in Hs as [Hs Hx].
    constructor; [by apply IH|].
    rewrite Forall_forall in Hx. apply Forall_forall. intros y Hy.
    apply Hx. by eapply elem_of_sublist.
  - apply StronglySorted_inv in Hs as [Hs _]. by apply IH.
Qed.

(** ** The sorted, stable permutation is unique *)

Section StableUnique.

Context {A : Type} (D : A → Prop) (le : relation A) (same : A → A → Prop).
Context `{!∀ x y, Decision (same x y)}.
Hypothesis same_refl : ∀ x, same x x.
Hypothesis le_same : ∀ x y, D x → D y → le x y → le y x → same x y.

Lemma stable_sorted_unique l1 l2 :
  Forall D l1 → l1 ≡ₚ l2 →
  StronglySorted le l1 → StronglySorted le l2 →
  (∀ p, filter (same p) l1 = filter (same p) l2) →
  l1 = l2.
Proof.
  revert l2. induction l1 as [|x l1 IH]; intros l2 HD Hperm Hs1 Hs2 Hst.
  { by apply Permutation_nil in Hperm. }
  destruct l2 as [|y l2].
  { symmetry in Hperm. by apply Permutation_nil in Hperm. }
  apply Forall_cons in HD as [Dx HD].
  apply StronglySorted_inv in Hs1 as [Hs1 Hx].
  apply StronglySorted_inv in Hs2 as [Hs2 Hy].
  rewrite Forall_forall in Hx, Hy.
  assert (x = y) as <-.
  { assert (y ∈ x :: l1) as Hyin by (rewrite Hperm; left).
    assert (x ∈ y :: l2) as Hxin by (rewrite <- Hperm; left).
    apply elem_of_cons in Hyin as [->|Hyin]; [done|].
    apply elem_of_cons in Hxin as [->|Hxin]; [done|].
    assert (D y) as Dy by (rewrite Forall_forall in HD; by apply HD).
    assert (same x y) as Hxy by (apply le_same; auto).
    specialize (Hst x).
    rewrite (filter_cons_True (same x) x), (filter_cons_True (same x) y) in Hst
      by done.
    by injection Hst. }
  f_equal. apply IH; try done.
  - by apply Permutation_cons_inv in Hperm.
  - intros p. specialize (Hst p). rewrite !filter_cons in Hst.
    destruct (decide (same p x)); [by injection Hst|done].
Qed.

End StableUnique.

(** ** The time normaliser *)

Lemma timeToMinutes_clock h1 h2 m1 m2 :
  (h1 < 10)%nat → (h2 < 10)%nat → (m1 < 10)%nat → (m2 < 10)%nat →
  let HH := 10 * Z.of_nat h1 + Z.of_nat h2 in
  let MM := 10 * Z.of_nat m1 + Z.of_nat m2 in
  timeToMinutes (Some (clock h1 h2 m1 m2))
  = JS.Int (if HH <? 5 then (HH + 24) * 60 + MM else HH * 60 + MM).
Proof.
  intros Hh1 Hh2 Hm1 Hm2 HH MM.
  unfold timeToMinutes. 
  change (clock h1 h2 m1 m2) with (String (digit h1) (String (digit h2)
    (String ":" (String (digit m1) (String (digit m2) EmptyString))))) at 1.
  cbv iota beta.
  rewrite split_clock by done.
  cbn [fmap list_fmap lookup list_lookup JS.of_undefined].
  rewrite !Number_two_digits by done.
  fold HH MM. cbn [JS.lt JS.add JS.mul].
  destruct (HH <? 5); reflexivity.
Qed.

(** C1. On a string "HH:MM" the normaliser returns (HH+24)*60+MM when
    HH < 5 and HH*60+MM otherwise, and on a missing or empty string it
    returns 0.  So every time with HH in 0..4 lies strictly after every
    time with HH in 5..23 and MM in 0..59. *)
Theorem timeToMinutes_spec :
  (∀ h1 h2 m1 m2 : nat,
     (h1 < 10)%nat → (h2 < 10)%nat → (m1 < 10)%nat → (m2 < 10)%nat →
     let HH := 10 * Z.of_nat h1 + Z.of_nat h2 in
     let MM := 10 * Z.of_nat m1 + Z.of_nat m2 in
     timeToMinutes (Some (clock h1 h2 m1 m2))
     = JS.Int (if HH <? 5 then (HH + 24) * 60 + MM else HH * 60 + MM)) ∧
  timeToMinutes None = JS.Int 0 ∧
  timeToMinutes (Some EmptyString) = JS.Int 0 ∧
  (∀ h1 h2 m1 m2 k1 k2 n1 n2 : nat,
     (h1 < 10)%nat → (h2 < 10)%nat → (m1 < 10)%nat → (m2 < 10)%nat →
     (k1 < 10)%nat → (k2 < 10)%nat → (n1 < 10)%nat → (n2 < 10)%nat →
     10 * Z.of_nat h1 + Z.of_nat h2 ≤ 4 →
     5 ≤ 10 * Z.of_nat k1 + Z.of_nat k2 ≤ 23 →
     10 * Z.of_nat n1 + Z.of_nat n2 ≤ 59 →
     ∃ late evening,
       timeToMinutes (Some (clock h1 h2 m1 m2)) = JS.Int late ∧
       timeToMinutes (Some (clock k1 k2 n1 n2)) = JS.Int evening ∧
       evening < late).
Proof.
  split_and!; try reflexivity.
  - apply timeToMinutes_clock.
  - intros h1 h2 m1 m2 k1 k2 n1 n2 ? ? ? ? ? ? ? ? Hh Hk Hn.
    eexists _, _. split_and!; [by apply timeToMinutes_clock..|].
    destruct (Z.ltb_spec (10 * Z.of_nat h1 + Z.of_nat h2) 5);
      destruct (Z.ltb_spec (10 * Z.of_nat k1 + Z.of_nat k2) 5); lia.
Qed.

Lemma timeToMinutes_spec_witness :
  timeToMinutes (Some (clock 0 0 1 0)) = JS.Int 1450 ∧
  ∃ late evening,
    timeToMinutes (Some (clock 0 4 5 9)) = JS.Int late ∧
    timeToMinutes (Some (clock 2 3 5 9)) = JS.Int evening ∧
    evening < late.
Proof.
  split.
  - apply (proj1 timeToMinutes_spec 0 0 1 0)%nat; lia.
  - apply (proj2 (proj2 (proj2 timeToMinutes_spec)) 0 4 5 9 2 3 5 9)%nat; lia.
Defined.

(** ** The festival date *)

Lemma dateStr_time d m : ∃ date, dateStr d m = date +:+ "T" +:+ timeOfDay m.
Proof. unfold dateStr. eexists. reflexivity. Qed.

(** On Friday before minute 1440 the fallback string is the string that
    has just been refused. *)
Lemma fallback_is_primary_on_Friday m :
  JS.ge m (JS.Int 1440) = false → fallbackDateStr m = dateStr "Friday" m.
Proof. intros Hm. unfold fallbackDateStr, dateStr. by rewrite Hm. Qed.

(** So on Friday a refusal of the primary string always reaches the
    caller, whatever [fromZonedTime] is. *)
Lemma createFestivalDate_rethrows_on_Friday {Date : Type}
    (fromZonedTime : string → string → JS.completion Date) m e :
  JS.ge m (JS.Int 1440) = false →
  fromZonedTime (dateStr "Friday" m) festivalTimeZone = JS.Throw e →
  snd (createFestivalDate fromZonedTime "Friday" m) = JS.Throw e.
Proof.
  intros Hm He. unfold createFestivalDate. rewrite He. cbn.
  by rewrite fallback_is_primary_on_Friday.
Qed.

(** What the try/catch does.  [createFestivalDate] returns the timestamp
    of the primary date string when [fromZonedTime] returns one.  When
    that call throws, the failure is logged and the result is whatever
    [fromZonedTime] does on the fallback string, which is the date
    2025-04-11 with the same hour and minute.  The formatting of the
    slider time passes on an exception of [createFestivalDate] and
    otherwise is what [formatInTimeZone] makes of the timestamp. *)
Lemma createFestivalDate_fallback {Date : Type}
    (fromZonedTime : string → string → JS.completion Date)
    (selectedDay : string) (minutes : JS.number) :
  let primary := fromZonedTime (dateStr selectedDay minutes) festivalTimeZone in
  let fallback := fromZonedTime (fallbackDateStr minutes) festivalTimeZone in
  (∀ t, primary = JS.Normal t →
        createFestivalDate fromZonedTime selectedDay minutes = ([], JS.Normal t)) ∧
  (∀ e, primary = JS.Throw e →
        createFestivalDate fromZonedTime selectedDay minutes
        = ([dateStr selectedDay minutes], fallback)) ∧
  (∃ date, dateStr selectedDay minutes = date +:+ "T" +:+ timeOfDay minutes) ∧
  fallbackDateStr minutes = "2025-04-11" +:+ "T" +:+ timeOfDay minutes ∧
  ((∃ e, snd (createFestivalDate fromZonedTime selectedDay minutes) = JS.Throw e)
   ↔ (∃ e1 e2, primary = JS.Throw e1 ∧ fallback = JS.Throw e2)) ∧
  (∀ formatInTimeZone selectedTimezone e,
     snd (createFestivalDate fromZonedTime selectedDay minutes) = JS.Throw e →
     formatSliderTime fromZonedTime formatInTimeZone
       selectedDay selectedTimezone minutes = JS.Throw e) ∧
  (∀ formatInTimeZone selectedTimezone t,
     snd (createFestivalDate fromZonedTime selectedDay minutes) = JS.Normal t →
     formatSliderTime fromZonedTime formatInTimeZone
       selectedDay selectedTimezone minutes
     = formatInTimeZone t
         (if String.eqb selectedTimezone "" then festivalTimeZone
          else selectedTimezone)
         "h:mm a").
Proof.
  intros primary fallback. split_and!.
  - unfold createFestivalDate. fold primary. by intros t ->.
  - unfold createFestivalDate. fold primary. by intros e ->.
  - apply dateStr_time.
  - reflexivity.
  - unfold createFestivalDate. fold primary fallback.
    destruct primary as [t|e1]; cbn.
    + split; [by intros [e [=]]|]. by intros (e1 & e2 & [=] & _).
    + split.
      * intros [e2 He]. by exists e1, e2.
      * intros (? & e2 & _ & He). by exists e2.
  - intros fmt tz e He. unfold formatSliderTime. by rewrite He.
  - intros fmt tz t He. unfold formatSliderTime. by rewrite He.
Qed.

(** C9.  The display of a performance whose time is not a clock time
    throws.  The start time "TBA" normalises to [NaN] and the date string
    reads "...TNaN:NaN:00".  [fromZonedTime] returns an invalid date for
    it and does not throw, so the catch block with its fallback date is
    not entered, nothing is logged, and [createFestivalDate] returns the
    invalid date.  [formatInTimeZone] throws on an invalid date, and
    nothing between it and the template catches the exception. *)
Theorem formatPerformanceTime_throws_on_malformed_time {Date : Type}
    (fromZonedTime : string → string → JS.completion Date)
    (formatInTimeZone : Date → string → string → JS.completion string)
    (invalidDate : Date) (e : string) (selectedDay selectedTimezone : string) :
  fromZonedTime (dateStr selectedDay JS.NaN) festivalTimeZone
    = JS.Normal invalidDate →
  (∀ tz fmt, formatInTimeZone invalidDate tz fmt = JS.Throw e) →
  timeToMinutes (Some "TBA") = JS.NaN ∧
  (∃ date, dateStr selectedDay (timeToMinutes (Some "TBA"))
           = date +:+ "TNaN:NaN:00") ∧
  createFestivalDate fromZonedTime selectedDay (timeToMinutes (Some "TBA"))
    = ([], JS.Normal invalidDate) ∧
  formatPerformanceTime fromZonedTime formatInTimeZone
    selectedDay selectedTimezone (Some "TBA") = JS.Throw e.
Proof.
  intros Hparse Hformat.
  assert (timeToMinutes (Some "TBA") = JS.NaN) as Hnan by reflexivity.
  split_and!.
  - done.
  - rewrite Hnan. unfold dateStr. eexists. reflexivity.
  - rewrite Hnan. unfold createFestivalDate. by rewrite Hparse.
  - unfold formatPerformanceTime, formatSliderTime, createFestivalDate.
    rewrite Hnan, Hparse. cbn. apply Hformat.
Qed.

Lemma formatPerformanceTime_throws_on_malformed_time_witness :
  createFestivalDate lenientFromZonedTime "Friday" (timeToMinutes (Some "TBA"))
    = ([], JS.Normal None) ∧
  formatPerformanceTime lenientFromZonedTime formatValidDate
    "Friday" "" (Some "TBA") = JS.Throw "RangeError: Invalid time value".
Proof.
  apply (formatPerformanceTime_throws_on_malformed_time
           lenientFromZonedTime formatValidDate None
           "RangeError: Invalid time value" "Friday" "").
  - reflexivity.
  - reflexivity.
Defined.

(** ** Current performances *)

Lemma atTime_spec d m p : atTime d m p = true ↔ isCurrent d m p.
Proof.
  unfold atTime, isCurrent.
  destruct (String.eqb_spec (day p) d) as [Hd|Hd]; cbn.
  - destruct (timeToMinutes (start p)) as [s|], (timeToMinutes (end_ p)) as [e|];
      cbn; rewrite ?andb_true_iff, ?Z.leb_le, ?Z.ltb_lt.
    + split.
      * intros [? ?]. split; [done|]. exists s, e. split_and!; done.
      * intros [_ (s' & e' & ? & ? & ?)]. simplify_eq. lia.
    + split; [intros [_ [=]]|]. by intros [_ (? & ? & _ & [=] & _)].
    + split; [done|]. by intros [_ (? & ? & [=] & _)].
    + split; [done|]. by intros [_ (? & ? & [=] & _)].
  - split; [done|]. by intros [? _].
Qed.

(** C2. The current performances are exactly the rows of the schedule,
    in schedule order, whose day is the selected day and whose normalised
    start and end satisfy start <= m < end.  A performance from "22:00"
    to "00:10" is current at the minutes of "23:59" and "00:05" and not
    at the minute of "00:10". *)
Theorem performancesAtTime_half_open (schedule : list performance) (d : string) (m : Z) :
  performancesAtTime schedule d m = filter (isCurrent d m) schedule ∧
  (∀ a s, let p := Performance a s d (Some "22:00") (Some "00:10") in
     timeToMinutes (Some "23:59") = JS.Int 1439 ∧
     timeToMinutes (Some "00:05") = JS.Int 1445 ∧
     timeToMinutes (Some "00:10") = JS.Int 1450 ∧
     performancesAtTime [p] d 1439 = [p] ∧
     performancesAtTime [p] d 1445 = [p] ∧
     performancesAtTime [p] d 1450 = []).
Proof.
  split.
  - unfold performancesAtTime. apply list_filter_iff. intros p.
    rewrite <- atTime_spec. apply Is_true_true.
  - intros a s p.
    assert (∀ t, atTime d t p
                 = (JS.ge (JS.Int t) (JS.Int 1320) && JS.lt (JS.Int t) (JS.Int 1450)))
      as Hat.
    { intros t. unfold atTime. cbn [day p]. by rewrite String.eqb_refl. }
    unfold performancesAtTime. rewrite !filter_cons, filter_nil.
    split_and!; try reflexivity.
    + rewrite decide_True; [done|]. rewrite Hat. by vm_compute.
    + rewrite decide_True; [done|]. rewrite Hat. by vm_compute.
    + rewrite decide_False; [done|]. rewrite Hat. vm_compute. tauto.
Qed.

(** ** The livestream resolver *)

Lemma inherited_cases key :
  JS.inherited key = JS.Method key ∨ JS.inherited key = JS.ObjectPrototype ∨
  JS.inherited key = JS.Undefined.
Proof.
  unfold JS.inherited.
  destruct (JS.isObjectPrototypeMethod key); [by left|].
  destruct (String.eqb key "__proto__"); [right; by left|right; by right].
Qed.

Lemma ofObjectPrototype_cases key :
  JS.ofObjectPrototype key = JS.Method key ∨ JS.ofObjectPrototype key = JS.Null ∨
  JS.ofObjectPrototype key = JS.Undefined.
Proof.
  unfold JS.ofObjectPrototype.
  destruct (JS.isObjectPrototypeMethod key); [by left|].
  destruct (String.eqb key "__proto__"); [right; by left|right; by right].
Qed.

Lemma ofObjectPrototype_ordinary key :
  ordinaryKey key → JS.ofObjectPrototype key = JS.Undefined.
Proof.
  unfold ordinaryKey, JS.inherited, JS.ofObjectPrototype.
  destruct (JS.isObjectPrototypeMethod key); [done|].
  by destruct (String.eqb key "__proto__").
Qed.



Lemma getLivestreamLink_ordinary s d :
  ordinaryKey d →
  getLivestreamLink s d = JS.Undefined ∨ ∃ id, getLivestreamLink s d = JS.Str id.
Proof.
  intros Hd. unfold getLivestreamLink.
  destruct (livestreamLinks !! s) as [[id|ids]|].
  - right. by exists id.
  - destruct (ids !! d) as [id|]; [right; by exists id|by left].
  - left. destruct (JS.inherited s); try done.
    by apply ofObjectPrototype_ordinary.
Qed.

Lemma getLivestreamLink_table s d id :
  getLivestreamLink s d = JS.Str id ↔
  (s, id) ∈ [ ("Coachella Stage", "Y2FzDMuJ5pI"); ("Outdoor Theatre", "WxwawRL_nY8");
              ("Sahara", "afO7r8TQTSw"); ("Mojave", "BajnpDN6vG8");
              ("Gobi", "Kg-KswkXoBg"); ("Sonora", "TdHrgLciYWw") ]
  ∨ (s = "Quasar" ∧
     (d, id) ∈ [ ("Friday", "1MOJG5VTh-Y"); ("Saturday", "SreThbvUUI8");
                 ("Sunday", "jKWRY1btTOs") ]).
Proof.
  assert (∀ k, JS.inherited k ≠ JS.Str id) as Hinh.
  { intros k. by destruct (inherited_cases k) as [->|[->| ->]]. }
  assert (∀ k, match JS.inherited k with
               | JS.ObjectPrototype => JS.ofObjectPrototype d
               | _ => JS.Undefined
               end ≠ JS.Str id) as Hnone.
  { intros k. destruct (inherited_cases k) as [->|[->| ->]]; try done.
    by destruct (ofObjectPrototype_cases d) as [->|[->| ->]]. }
  unfold getLivestreamLink, livestreamLinks.
  cbn [list_to_map foldr curry fst snd].
  rewrite !lookup_insert, !lookup_empty, !elem_of_cons, !elem_of_nil.
  repeat case_decide; subst; rewrite ?lookup_insert, ?lookup_empty;
    repeat case_decide; subst.
  all: split; [intros Hid|intros Hin].
  all: try (injection Hid as <-).
  all: try discriminate.
  all: try (by apply Hinh in Hid).
  all: try (by apply Hnone in Hid).
  all: try tauto.
  all: intuition congruence.
Qed.




(** ** The stage list *)

Lemma stagesForDay_elem_of schedule d s :
  s ∈ stagesForDay schedule d ↔ ∃ p, p ∈ schedule ∧ day p = d ∧ stage p = s.
Proof.
  unfold stagesForDay.
  rewrite sort_Permutation, distinct_elem_of, list_elem_of_fmap.
  split.
  - intros (p & -> & [Hd Hp]%list_elem_of_filter). by exists p.
  - intros (p & Hp & Hd & <-). exists p. by rewrite list_elem_of_filter.
Qed.

Lemma stagesForDay_NoDup schedule d : NoDup (stagesForDay schedule d).
Proof.
  unfold stagesForDay. rewrite sort_Permutation. apply distinct_go_NoDup.
Qed.

Lemma stagesForDay_sorted schedule d :
  StronglySorted String.le (stagesForDay schedule d).
Proof.
  unfold stagesForDay.
  apply (sort_sorted _ (λ _, True) String.le).
  - intros x y z _ _ _. apply transitivity.
  - intros x y _ _. apply total, _.
  - intros x y _ _. apply defaultCompare_le.
  - by apply Forall_forall.
Qed.

Lemma stages_sublist_stagesForDay schedule d m he hn :
  sublist (stages schedule d m he hn) (stagesForDay schedule d).
Proof.
  unfold stages.
  set (kept := if he then _ else _).
  assert (sublist kept (stagesForDay schedule d)) as Hkept.
  { subst kept. destruct he; [apply sublist_filter|done]. }
  destruct hn; [|done].
  destruct (m <? 960); [apply sublist_nil_l|].
  do 2 (etrans; [apply sublist_filter|]). done.
Qed.

(** C3. Before 16:00 festival time (minute 960) the stage list is empty
    whenever the hide-no-stream toggle is on, whatever the other toggle,
    the day and the schedule. *)
Theorem stages_empty_before_960 (schedule : list performance) (d : string)
    (m : Z) (hideEmptyStages : bool) :
  m < 960 → stages schedule d m hideEmptyStages true = [].
Proof.
  intros Hm. unfold stages.
  destruct (Z.ltb_spec m 960); [done|lia].
Qed.

Lemma stages_empty_before_960_witness :
  (900 < 960) ∧ stages demoSchedule "Friday" 900 true true = [].
Proof.
  split; [lia|]. apply (stages_empty_before_960 demoSchedule "Friday" 900 true). lia.
Defined.





(** C10. Under every state of the two toggles the stage list is a
    subsequence of the sorted list of the distinct stages of the selected
    day: it is in lexicographic order, has no duplicates, and every stage
    in it has a performance on the selected day. *)
Theorem stages_invariant (schedule : list performance) (d : string) (m : Z)
    (hideEmptyStages hideNoStreamStages : bool) :
  let shown := stages schedule d m hideEmptyStages hideNoStreamStages in
  sublist shown (stagesForDay schedule d) ∧
  StronglySorted String.le (stagesForDay schedule d) ∧
  NoDup (stagesForDay schedule d) ∧
  (∀ s, s ∈ stagesForDay schedule d ↔
        ∃ p, p ∈ schedule ∧ day p = d ∧ stage p = s) ∧
  StronglySorted String.le shown ∧
  NoDup shown ∧
  (∀ s, s ∈ shown → ∃ p, p ∈ schedule ∧ day p = d ∧ stage p = s).
Proof.
  intros shown.
  pose proof (stages_sublist_stagesForDay schedule d m
                hideEmptyStages hideNoStreamStages) as Hsub.
  fold shown in Hsub.
  split_and!.
  - done.
  - apply stagesForDay_sorted.
  - apply stagesForDay_NoDup.
  - apply stagesForDay_elem_of.
  - apply (StronglySorted_sublist _ _ _ Hsub), stagesForDay_sorted.
  - eapply sublist_NoDup; [apply stagesForDay_NoDup|apply Hsub].
  - intros s Hs. apply stagesForDay_elem_of. by eapply elem_of_sublist.
Qed.

Lemma stages_invariant_witness :
  ∃ p, p ∈ demoSchedule ∧ day p = "Friday" ∧ stage p = "Sahara".
Proof.
  apply (proj2 (proj2 (proj2 (proj2 (proj2 (proj2
           (stages_invariant demoSchedule "Friday" 1445 true true))))))).
  vm_compute. repeat constructor.
Defined.

(** ** The chronological comparator *)

Lemma wellFormed_key p :
  wellFormed p →
  ∃ r m, dayOrder !! day p = Some r ∧ timeToMinutes (start p) = JS.Int m.
Proof.
  intros [[r Hr] Hm]. destruct (timeToMinutes (start p)) as [m|] eqn:E; [|done].
  by exists r, m.
Qed.

Lemma byDayThenStart_le p q :
  wellFormed p → wellFormed q →
  JS.sortCompare byDayThenStart p q ≤ 0 ↔ chronLe p q.
Proof.
  intros (rp & mp & Hrp & Hmp)%wellFormed_key (rq & mq & Hrq & Hmq)%wellFormed_key.
  unfold JS.sortCompare, byDayThenStart, dayRank, chronLe.
  rewrite Hrp, Hrq, Hmp, Hmq. cbn.
  destruct (Z.eqb_spec rp rq) as [->|Hne]; cbn.
  - split.
    + intros H. exists rq, rq, mp, mq. repeat split; try done. right. lia.
    + intros (? & ? & ? & ? & ? & ? & ? & ? & H). simplify_eq. lia.
  - split.
    + intros H. exists rp, rq, mp, mq. repeat split; try done. left. lia.
    + intros (? & ? & ? & ? & ? & ? & ? & ? & H). simplify_eq. lia.
Qed.

Lemma chronLe_trans p q r :
  wellFormed p → wellFormed q → wellFormed r →
  chronLe p q → chronLe q r → chronLe p r.
Proof.
  intros _ _ _ (rp & rq & mp & mq & ? & ? & ? & ? & Hpq)
    (rq' & rr & mq' & mr & ? & ? & ? & ? & Hqr).
  assert (rq' = rq) as -> by congruence.
  assert (mq' = mq) as -> by congruence.
  exists rp, rr, mp, mr. split_and!; [done..|lia].
Qed.

Lemma chronLe_total p q :
  wellFormed p → wellFormed q → chronLe p q ∨ chronLe q p.
Proof.
  intros (rp & mp & Hrp & Hmp)%wellFormed_key (rq & mq & Hrq & Hmq)%wellFormed_key.
  destruct (Z.le_gt_cases rp rq) as [H|H];
    [destruct (Z.eq_dec rp rq) as [->|];
       [destruct (Z.le_gt_cases mp mq)|]|].
  - left. exists rq, rq, mp, mq. repeat split; try done. lia.
  - right. exists rq, rq, mq, mp. repeat split; try done. lia.
  - left. exists rp, rq, mp, mq. repeat split; try done. lia.
  - right. exists rq, rp, mq, mp. repeat split; try done. lia.
Qed.

Lemma sameSlot_chronLe p y z :
  wellFormed y → wellFormed z → sameSlot p y → sameSlot p z → chronLe y z.
Proof.
  intros (ry & my & Hry & Hmy)%wellFormed_key (rz & mz & Hrz & Hmz)%wellFormed_key
    [Hdy Hsy] [Hdz Hsz].
  exists ry, rz, my, mz. repeat split; try done.
  right. rewrite Hdy, <- Hdz, Hrz in Hry. rewrite Hsy, <- Hsz, Hmz in Hmy.
  simplify_eq. lia.
Qed.

Lemma dayOrder_inj d1 d2 r :
  dayOrder !! d1 = Some r → dayOrder !! d2 = Some r → d1 = d2.
Proof.
  unfold dayOrder. cbn [list_to_map foldr curry fst snd].
  rewrite !lookup_insert, !lookup_empty.
  repeat case_decide; congruence.
Qed.

Lemma chronLe_sameSlot p q :
  wellFormed p → wellFormed q → chronLe p q → chronLe q p → sameSlot p q.
Proof.
  intros _ _ (rp & rq & mp & mq & Hrp & Hrq & Hmp & Hmq & Hpq)
    (rq' & rp' & mq' & mp' & Hrq' & Hrp' & Hmq' & Hmp' & Hqp).
  assert (rq' = rq) as -> by congruence.
  assert (rp' = rp) as -> by congruence.
  assert (mq' = mq) as -> by congruence.
  assert (mp' = mp) as -> by congruence.
  assert (rp = rq) as -> by lia.
  assert (mp = mq) as -> by lia.
  split; [by apply (dayOrder_inj _ _ rq)|congruence].
Qed.

(** The rows of the data model are of this kind: a festival day and a
    start that is missing or of the form "HH:MM". *)
Lemma festival_row_wellFormed a s d t e :
  d ∈ ["Friday"; "Saturday"; "Sunday"] →
  (t = None ∨ ∃ h1 h2 m1 m2 : nat,
      (h1 < 10)%nat ∧ (h2 < 10)%nat ∧ (m1 < 10)%nat ∧ (m2 < 10)%nat ∧
      t = Some (clock h1 h2 m1 m2)) →
  wellFormed (Performance a s d t e).
Proof.
  intros Hd Ht. split; cbn [day start].
  - rewrite !elem_of_cons, elem_of_nil in Hd.
    destruct Hd as [->|[->|[->|[]]]]; by eexists.
  - destruct Ht as [->|(h1 & h2 & m1 & m2 & ? & ? & ? & ? & ->)]; [done|].
    by rewrite timeToMinutes_clock.
Qed.

(** C5. The chronological list holds the same performances as the
    schedule.  On every schedule of rows the comparator can rank (a day
    of the festival, a start that normalises to a number) it is ascending
    in (day rank, normalised start minutes) with Friday = 0, Saturday = 1
    and Sunday = 2, and rows with the same day and the same start minutes
    keep the relative order they have in the schedule. *)
Theorem chronological_sorted_stable (schedule : list performance) :
  chronologicalPerformances schedule ≡ₚ schedule ∧
  dayOrder !! "Friday" = Some 0 ∧
  dayOrder !! "Saturday" = Some 1 ∧
  dayOrder !! "Sunday" = Some 2 ∧
  (Forall wellFormed schedule →
   StronglySorted chronLe (chronologicalPerformances schedule) ∧
   ∀ p, filter (sameSlot p) (chronologicalPerformances schedule)
        = filter (sameSlot p) schedule).
Proof.
  unfold chronologicalPerformances. split_and!; try reflexivity.
  - apply sort_Permutation.
  - intros Hwf. split.
    + by apply (sort_sorted _ wellFormed chronLe
                  chronLe_trans chronLe_total byDayThenStart_le).
    + intros p.
      apply (sort_stable _ wellFormed chronLe byDayThenStart_le); [done|].
      intros y z. apply sameSlot_chronLe.
Qed.

Lemma chronological_sorted_stable_witness :
  Forall wellFormed demoSchedule ∧
  StronglySorted chronLe (chronologicalPerformances demoSchedule) ∧
  ∀ p, filter (sameSlot p) (chronologicalPerformances demoSchedule)
       = filter (sameSlot p) demoSchedule.
Proof.
  assert (Forall wellFormed demoSchedule) as Hwf
    by (repeat constructor; (by eexists) || (vm_compute; discriminate)).
  split; [exact Hwf|].
  apply (proj2 (proj2 (proj2 (proj2
           (chronological_sorted_stable demoSchedule))))).
  exact Hwf.
Defined.

Lemma StronglySorted_related {A} (R : relation A) l x y :
  StronglySorted R l → x ∈ l → y ∈ l → x ≠ y → R x y ∨ R y x.
Proof.
  induction 1 as [|z l Hs IH Hz]; [by intros ?%elem_of_nil|].
  rewrite Forall_forall in Hz.
  intros [->|Hx]%elem_of_cons [->|Hy]%elem_of_cons Hne.
  - done.
  - left. by apply Hz.
  - right. by apply Hz.
  - by apply IH.
Qed.

(** A row whose start is "TBA" has no start minute, and the comparator
    answers [NaN] whenever it is compared by time.  In [tbaSchedule] the
    act of 15:00 stays in front of the act of 12:00.  Whatever order an
    engine gives the three rows, the list is not ascending in (day rank,
    start minutes), since the row without a start minute has no place in
    that order. *)
Lemma chronological_malformed_start :
  timeToMinutes (Some "TBA") = JS.NaN ∧
  timeToMinutes (Some "15:00") = JS.Int 900 ∧
  timeToMinutes (Some "12:00") = JS.Int 720 ∧
  chronologicalPerformances tbaSchedule
  = [ Performance "Late" "Sahara" "Friday" (Some "15:00") (Some "16:00");
      Performance "Unannounced" "Gobi" "Friday" (Some "TBA") None;
      Performance "Early" "Mojave" "Friday" (Some "12:00") (Some "13:00") ] ∧
  ¬ StronglySorted chronLe (chronologicalPerformances tbaSchedule) ∧
  (∀ l, l ≡ₚ tbaSchedule → ¬ StronglySorted chronLe l).
Proof.
  assert (∀ l, l ≡ₚ tbaSchedule → ¬ StronglySorted chronLe l) as Hany.
  { intros l Hl Hs.
    destruct (StronglySorted_related chronLe l
                (Performance "Unannounced" "Gobi" "Friday" (Some "TBA") None)
                (Performance "Early" "Mojave" "Friday" (Some "12:00") (Some "13:00"))
                Hs)
      as [(? & ? & ? & ? & _ & _ & Hm & _)|(? & ? & ? & ? & _ & _ & _ & Hm & _)].
    - rewrite Hl. unfold tbaSchedule. set_solver.
    - rewrite Hl. unfold tbaSchedule. set_solver.
    - discriminate.
    - discriminate Hm.
    - discriminate Hm. }
  split_and!; try reflexivity; [|done].
  apply Hany. unfold chronologicalPerformances. apply sort_Permutation.
Qed.

(** X22. On every schedule of rows the comparator can rank, sorting the
    chronological list again returns it unchanged, element for element,
    ties included. *)
Theorem chronological_idempotent (schedule : list performance) :
  Forall wellFormed schedule →
  chronologicalPerformances (chronologicalPerformances schedule)
  = chronologicalPerformances schedule.
Proof.
  intros Hwf. unfold chronologicalPerformances.
  by apply (sort_idempotent _ wellFormed chronLe
              chronLe_trans chronLe_total byDayThenStart_le).
Qed.

Lemma chronological_idempotent_witness :
  Forall wellFormed demoSchedule ∧
  chronologicalPerformances (chronologicalPerformances demoSchedule)
  = chronologicalPerformances demoSchedule.
Proof.
  assert (Forall wellFormed demoSchedule) as Hwf
    by (repeat constructor; (by eexists) || (vm_compute; discriminate)).
  split; [exact Hwf|].
  apply (chronological_idempotent demoSchedule). exact Hwf.
Defined.

(** The three properties of the chronological list determine it: any
    sorted, stable rearrangement of a rankable schedule is the list the
    page computes, whichever stable sort the engine runs. *)
Lemma chronological_unique (schedule sorted : list performance) :
  Forall wellFormed schedule →
  sorted ≡ₚ schedule →
  StronglySorted chronLe sorted →
  (∀ p, filter (sameSlot p) sorted = filter (sameSlot p) schedule) →
  sorted = chronologicalPerformances schedule.
Proof.
  intros Hwf Hperm Hs Hst.
  pose proof (sort_Permutation byDayThenStart schedule) as Hp.
  apply (stable_sorted_unique wellFormed chronLe sameSlot).
  - by intros x.
  - apply chronLe_sameSlot.
  - by rewrite Hperm.
  - unfold chronologicalPerformances. by rewrite Hperm, Hp.
  - done.
  - by apply (sort_sorted _ wellFormed chronLe
                chronLe_trans chronLe_total byDayThenStart_le).
  - intros p. rewrite Hst. symmetry. unfold chronologicalPerformances.
    apply (sort_stable _ wellFormed chronLe byDayThenStart_le); [done|].
    intros y z. apply sameSlot_chronLe.
Qed.

(** ** The search filter *)

Lemma matchesSearch_spec term p :
  matchesSearch term p = true ↔
  allWhite term = true ∨ containsIgnoringCase (artist p) term.
Proof.
  unfold matchesSearch, containsIgnoringCase.
  rewrite <- trim_empty, <- includes_spec.
  destruct (JS.trim term); intuition congruence.
Qed.



(** ** More on the time normaliser *)

Lemma includes_colon_cons c s :
  JS.includes (String c s) ":" = false →
  Ascii.eqb c ":" = false ∧ JS.includes s ":" = false.
Proof.
  cbn [JS.includes String.prefix]. intros H.
  apply orb_false_iff in H as [Hp Hs]. split; [|done].
  destruct (Ascii.ascii_dec ":" c) as [<-|Hne].
  - by destruct s.
  - apply Ascii.eqb_neq. congruence.
Qed.

Lemma split_without_colon s :
  JS.includes s ":" = false → JS.split ":" s = [s].
Proof.
  induction s as [|c s IH]; [done|].
  intros [Hc Hs]%includes_colon_cons. cbn [JS.split].
  by rewrite Hc, IH.
Qed.

Lemma split_nonempty sep s : ∃ w ws, JS.split sep s = w :: ws.
Proof.
  induction s as [|c s (w & ws & IH)]; cbn [JS.split]; [by eexists _, _|].
  destruct (Ascii.eqb c sep); [by eexists _, _|].
  rewrite IH. by eexists _, _.
Qed.

Lemma add_NaN x : JS.add x JS.NaN = JS.NaN.
Proof. by destruct x. Qed.

(** X1. A time string without a colon has no minutes field, and the sum with
    [undefined] is [NaN]: such a string never normalises to a number. *)
Theorem timeToMinutes_without_colon (s : string) :
  s ≠ EmptyString → JS.includes s ":" = false →
  timeToMinutes (Some s) = JS.NaN.
Proof.
  intros Hne Hs. unfold timeToMinutes.
  destruct s as [|c s]; [done|].
  rewrite split_without_colon by done.
  cbn [fmap list_fmap lookup list_lookup JS.of_undefined].
  destruct (JS.lt _ _); apply add_NaN.
Qed.

Lemma timeToMinutes_without_colon_witness :
  timeToMinutes (Some "1230") = JS.NaN.
Proof.
  apply (timeToMinutes_without_colon "1230"); [discriminate|reflexivity].
Defined.

(** X2. Only the first two fields of a time string count: whatever follows a
    second colon (seconds, a zone) does not change the result. *)
Theorem timeToMinutes_ignores_third_field (h1 h2 m1 m2 : nat) (rest : string) :
  (h1 < 10)%nat → (h2 < 10)%nat → (m1 < 10)%nat → (m2 < 10)%nat →
  timeToMinutes (Some (clock h1 h2 m1 m2 +:+ ":" +:+ rest))
  = timeToMinutes (Some (clock h1 h2 m1 m2)).
Proof.
  intros Hh1 Hh2 Hm1 Hm2.
  assert (∃ ws, JS.split ":" (clock h1 h2 m1 m2 +:+ ":" +:+ rest)
                = String (digit h1) (String (digit h2) EmptyString)
                  :: String (digit m1) (String (digit m2) EmptyString) :: ws)
    as [ws Hsplit].
  { change (clock h1 h2 m1 m2 +:+ ":" +:+ rest)
      with (String (digit h1) (String (digit h2) (String ":"
             (String (digit m1) (String (digit m2) (String ":" rest)))))).
    destruct (split_nonempty ":" rest) as (w & ws & Hrest).
    exists (w :: ws). cbn [JS.split].
    rewrite !digit_not_colon by done. cbn [Ascii.eqb Bool.eqb].
    by rewrite Hrest. }
  pose proof (split_clock h1 h2 m1 m2 Hh1 Hh2 Hm1 Hm2) as Hclock.
  unfold timeToMinutes.
  change (clock h1 h2 m1 m2 +:+ ":" +:+ rest)
    with (String (digit h1) (String (digit h2) (String ":"
           (String (digit m1) (String (digit m2) (String ":" rest)))))) at 1.
  change (clock h1 h2 m1 m2)
    with (String (digit h1) (String (digit h2) (String ":"
           (String (digit m1) (String (digit m2) EmptyString))))) at 2.
  cbv iota beta.
  change (String (digit h1) (String (digit h2) (String ":"
           (String (digit m1) (String (digit m2) (String ":" rest))))))
    with (clock h1 h2 m1 m2 +:+ ":" +:+ rest).
  change (String (digit h1) (String (digit h2) (String ":"
           (String (digit m1) (String (digit m2) EmptyString)))))
    with (clock h1 h2 m1 m2).
  by rewrite Hsplit, Hclock.
Qed.

Lemma timeToMinutes_ignores_third_field_witness :
  timeToMinutes (Some "23:10:59") = timeToMinutes (Some "23:10").
Proof.
  apply (timeToMinutes_ignores_third_field 2 3 1 0 "59"); lia.
Defined.

(** X3. On the valid clock times (HH up to 23, MM up to 59) the normaliser is
    one-to-one and its values lie between 300 (05:00) and 1739 (04:59). *)
Theorem timeToMinutes_injective_bounded (h1 h2 m1 m2 k1 k2 n1 n2 : nat) :
  (h1 < 10)%nat → (h2 < 10)%nat → (m1 < 10)%nat → (m2 < 10)%nat →
  (k1 < 10)%nat → (k2 < 10)%nat → (n1 < 10)%nat → (n2 < 10)%nat →
  10 * Z.of_nat h1 + Z.of_nat h2 ≤ 23 → 10 * Z.of_nat m1 + Z.of_nat m2 ≤ 59 →
  10 * Z.of_nat k1 + Z.of_nat k2 ≤ 23 → 10 * Z.of_nat n1 + Z.of_nat n2 ≤ 59 →
  (∃ t, timeToMinutes (Some (clock h1 h2 m1 m2)) = JS.Int t ∧ 300 ≤ t ≤ 1739) ∧
  (timeToMinutes (Some (clock h1 h2 m1 m2))
   = timeToMinutes (Some (clock k1 k2 n1 n2)) →
   clock h1 h2 m1 m2 = clock k1 k2 n1 n2).
Proof.
  intros Hh1 Hh2 Hm1 Hm2 Hk1 Hk2 Hn1 Hn2 HH MM KK NN.
  rewrite !timeToMinutes_clock by done. split.
  - eexists. split; [reflexivity|].
    destruct (Z.ltb_spec (10 * Z.of_nat h1 + Z.of_nat h2) 5); lia.
  - intros [= Heq].
    assert (h1 = k1 ∧ h2 = k2 ∧ m1 = n1 ∧ m2 = n2) as (-> & -> & -> & ->); [|done].
    destruct (Z.ltb_spec (10 * Z.of_nat h1 + Z.of_nat h2) 5),
             (Z.ltb_spec (10 * Z.of_nat k1 + Z.of_nat k2) 5); lia.
Qed.

Lemma timeToMinutes_injective_bounded_witness :
  ∃ t, timeToMinutes (Some (clock 0 4 5 9)) = JS.Int t ∧ 300 ≤ t ≤ 1739.
Proof.
  apply (timeToMinutes_injective_bounded 0 4 5 9 0 5 0 0); lia.
Defined.

(** ** More on the festival date *)

Lemma pad2_digits a b :
  (a < 10)%nat → (b < 10)%nat →
  JS.padStart 2 "0" (JS.toString (JS.Int (10 * Z.of_nat a + Z.of_nat b)))
  = String (digit a) (String (digit b) EmptyString).
Proof.
  intros Ha Hb.
  do 10 (destruct a as [|a]; [do 10 (destruct b as [|b]; [reflexivity|]); lia|]).
  lia.
Qed.

Lemma dayOrder_lookup d r :
  dayOrder !! d = Some r →
  (d = "Friday" ∧ r = 0) ∨ (d = "Saturday" ∧ r = 1) ∨ (d = "Sunday" ∧ r = 2).
Proof.
  unfold dayOrder. cbn [list_to_map foldr curry fst snd].
  rewrite !lookup_insert, !lookup_empty.
  repeat case_decide; subst; intros [= <-]; tauto.
Qed.

Lemma timeOfDay_clock h1 h2 m1 m2 :
  (h1 < 10)%nat → (h2 < 10)%nat → (m1 < 10)%nat → (m2 < 10)%nat →
  10 * Z.of_nat h1 + Z.of_nat h2 ≤ 23 → 10 * Z.of_nat m1 + Z.of_nat m2 ≤ 59 →
  timeOfDay (timeToMinutes (Some (clock h1 h2 m1 m2)))
  = clock h1 h2 m1 m2 +:+ ":00".
Proof.
  intros Hh1 Hh2 Hm1 Hm2 HH MM.
  rewrite timeToMinutes_clock by done. cbv zeta.
  set (hh := 10 * Z.of_nat h1 + Z.of_nat h2) in *.
  set (mm := 10 * Z.of_nat m1 + Z.of_nat m2) in *.
  assert (0 ≤ hh ∧ 0 ≤ mm) as [Hhh Hmm] by (subst hh mm; lia).
  unfold timeOfDay. cbn [JS.floor_div JS.rem].
  assert (∀ q, 0 ≤ q → Z.rem ((q * 60 + mm) / 60) 24 = Z.rem q 24) as Hq.
  { intros q Hq0. by rewrite Z.div_add_l, Z.div_small, Z.add_0_r by lia. }
  assert (∀ q, 0 ≤ q → Z.rem (q * 60 + mm) 60 = mm) as Hr.
  { intros q Hq0. rewrite Z.rem_mod_nonneg by lia.
    rewrite Z.add_comm, Z.mod_add by lia. apply Z.mod_small. lia. }
  destruct (Z.ltb_spec hh 5).
  - rewrite Hq, Hr by lia.
    replace (Z.rem (hh + 24) 24) with hh.
    + subst hh mm. by rewrite !pad2_digits.
    + rewrite Z.rem_mod_nonneg by lia.
      replace (hh + 24) with (hh + 1 * 24) by lia.
      rewrite Z.mod_add by lia. symmetry. apply Z.mod_small. lia.
  - rewrite Hq, Hr by lia.
    rewrite (Z.rem_small hh 24) by lia.
    subst hh mm. by rewrite !pad2_digits.
Qed.

(** X4. The date string of a performance time "HH:MM" on a festival day
    repeats the time unchanged, and its date is 11 April plus the rank of
    the day in [dayOrder], plus one when the time is after midnight
    (HH below 5). *)
Theorem dateStr_of_clock (d : string) (r : Z) (h1 h2 m1 m2 : nat) :
  dayOrder !! d = Some r →
  (h1 < 10)%nat → (h2 < 10)%nat → (m1 < 10)%nat → (m2 < 10)%nat →
  10 * Z.of_nat h1 + Z.of_nat h2 ≤ 23 → 10 * Z.of_nat m1 + Z.of_nat m2 ≤ 59 →
  dateStr d (timeToMinutes (Some (clock h1 h2 m1 m2)))
  = "2025-04-"
    +:+ JS.toString (JS.Int (11 + r +
          (if 10 * Z.of_nat h1 + Z.of_nat h2 <? 5 then 1 else 0)))
    +:+ "T" +:+ clock h1 h2 m1 m2 +:+ ":00".
Proof.
  intros Hd Hh1 Hh2 Hm1 Hm2 HH MM.
  unfold dateStr. rewrite timeOfDay_clock by done.
  rewrite timeToMinutes_clock by done. cbv zeta.
  set (hh := 10 * Z.of_nat h1 + Z.of_nat h2) in *.
  set (mm := 10 * Z.of_nat m1 + Z.of_nat m2) in *.
  assert (0 ≤ hh ∧ 0 ≤ mm) as [Hhh Hmm] by (subst hh mm; lia).
  assert (JS.ge (JS.Int (if hh <? 5 then (hh + 24) * 60 + mm else hh * 60 + mm))
            (JS.Int 1440) = (hh <? 5)) as ->.
  { cbn [JS.ge]. destruct (Z.ltb_spec hh 5); [apply Z.leb_le|apply Z.leb_gt]; lia. }
  apply dayOrder_lookup in Hd as [[-> ->]|[[-> ->]|[-> ->]]];
    destruct (hh <? 5); reflexivity.
Qed.

Lemma dateStr_of_clock_witness :
  dateStr "Saturday" (timeToMinutes (Some (clock 0 1 3 0)))
  = "2025-04-13T01:30:00".
Proof.
  apply (dateStr_of_clock "Saturday" 1 0 1 3 0); (reflexivity || lia).
Defined.

Lemma timeOfDay_next_day m :
  0 ≤ m → timeOfDay (JS.Int (m + 1440)) = timeOfDay (JS.Int m).
Proof.
  intros Hm. unfold timeOfDay. cbn [JS.floor_div JS.rem].
  replace ((m + 1440) / 60) with (m / 60 + 1 * 24).
  - assert (0 ≤ m / 60) by (apply Z.div_pos; lia).
    rewrite !(Z.rem_mod_nonneg (m / 60 + 1 * 24)), !(Z.rem_mod_nonneg (m / 60))
      by lia.
    rewrite Z.mod_add by lia.
    rewrite !(Z.rem_mod_nonneg (m + 1440)), !(Z.rem_mod_nonneg m) by lia.
    replace (m + 1440) with (m + 24 * 60) by lia.
    by rewrite Z.mod_add by lia.
  - replace (m + 1440) with (m + 24 * 60) by lia.
    rewrite Z.div_add by lia. lia.
Qed.

(** X5. Minute [m + 1440] of one festival day and minute [m] of the next
    festival day are the same moment: [createFestivalDate] builds the
    same date strings for both and so returns the same result. *)
Theorem createFestivalDate_next_day {Date : Type}
    (fromZonedTime : string → string → JS.completion Date)
    (d d' : string) (r m : Z) :
  dayOrder !! d = Some r → dayOrder !! d' = Some (r + 1) →
  0 ≤ m < 1440 →
  dateStr d (JS.Int (m + 1440)) = dateStr d' (JS.Int m) ∧
  createFestivalDate fromZonedTime d (JS.Int (m + 1440))
  = createFestivalDate fromZonedTime d' (JS.Int m).
Proof.
  intros Hd Hd' Hm.
  assert (dateStr d (JS.Int (m + 1440)) = dateStr d' (JS.Int m)) as Hstr.
  { unfold dateStr. rewrite timeOfDay_next_day by lia. cbn [JS.ge].
    destruct (Z.leb_spec 1440 (m + 1440)); [|lia].
    destruct (Z.leb_spec 1440 m); [lia|].
    apply dayOrder_lookup in Hd as [[-> ->]|[[-> ->]|[-> ->]]];
      apply dayOrder_lookup in Hd' as [[-> ?]|[[-> ?]|[-> ?]]];
      (lia || reflexivity). }
  split; [done|].
  unfold createFestivalDate, fallbackDateStr.
  by rewrite Hstr, timeOfDay_next_day by lia.
Qed.

Lemma createFestivalDate_next_day_witness :
  dateStr "Friday" (JS.Int (30 + 1440)) = dateStr "Saturday" (JS.Int 30).
Proof.
  apply (createFestivalDate_next_day lenientFromZonedTime
           "Friday" "Saturday" 0 30); (reflexivity || lia).
Defined.

(** ** More on the current performances and the grid *)

(** X7. A performance whose end does not normalise to a later minute than its
    start is current at no minute of any day.  This is the case of a set
    that starts after midnight and ends at 05:00 or later. *)
Theorem never_current_when_end_not_after_start (schedule : list performance)
    (p : performance) (s e : Z) :
  timeToMinutes (start p) = JS.Int s → timeToMinutes (end_ p) = JS.Int e →
  e ≤ s →
  ∀ d m, p ∉ performancesAtTime schedule d m.
Proof.
  intros Hs He Hle d m Hin.
  apply (proj1 (list_elem_of_filter _ _ _)) in Hin as [Hat _].
  apply Is_true_true, atTime_spec in Hat as [_ (s' & e' & Hs' & He' & Hm)].
  rewrite Hs in Hs'. rewrite He in He'. simplify_eq. lia.
Qed.

Lemma never_current_when_end_not_after_start_witness :
  Performance "Sunrise Set" "Yuma" "Saturday" (Some "04:30") (Some "05:10")
  ∉ performancesAtTime
      [Performance "Sunrise Set" "Yuma" "Saturday" (Some "04:30") (Some "05:10")]
      "Saturday" 1715.
Proof.
  apply (never_current_when_end_not_after_start _ _ 1710 310);
    (reflexivity || lia).
Defined.

(** X8. A row with a missing or empty end time is current at no minute from
    0 on, so never at a slider position. *)
Theorem never_current_without_end (schedule : list performance)
    (p : performance) (d : string) (m : Z) :
  end_ p = None ∨ end_ p = Some EmptyString →
  0 ≤ m → p ∉ performancesAtTime schedule d m.
Proof.
  intros Hend Hm Hin.
  apply (proj1 (list_elem_of_filter _ _ _)) in Hin as [Hat _].
  apply Is_true_true, atTime_spec in Hat as [_ (s' & e' & _ & He' & Hme)].
  destruct Hend as [Hend|Hend]; rewrite Hend in He'; cbn in He';
    simplify_eq; lia.
Qed.

Lemma never_current_without_end_witness :
  Performance "Open End" "Gobi" "Friday" (Some "22:00") None
  ∉ performancesAtTime
      [Performance "Open End" "Gobi" "Friday" (Some "22:00") None] "Friday" 1330.
Proof.
  apply never_current_without_end; [by left|lia].
Defined.

Lemma performanceFor_Some perfs stageName p :
  performanceFor perfs stageName = Some p → p ∈ perfs ∧ stage p = stageName.
Proof.
  unfold performanceFor. intros [Hin Heq]%find_some.
  split; [by apply list_elem_of_In|by apply String.eqb_eq].
Qed.

Lemma performanceFor_None perfs stageName :
  performanceFor perfs stageName = None ↔ stageName ∉ stage <$> perfs.
Proof.
  unfold performanceFor. split.
  - intros Hnone (p & -> & Hp)%list_elem_of_fmap.
    apply list_elem_of_In in Hp.
    pose proof (find_none _ _ Hnone p Hp) as Hneq. cbn in Hneq.
    by rewrite String.eqb_refl in Hneq.
  - intros Hnot.
    destruct (find _ perfs) as [p|] eqn:Hf; [|done].
    apply find_some in Hf as [Hin Heq]. exfalso. apply Hnot.
    apply list_elem_of_fmap. exists p.
    split; [symmetry; by apply String.eqb_eq|by apply list_elem_of_In].
Qed.

(** X9. With the hide-empty toggle on, every stage the grid lists has a
    performance to show: the lookup of its row finds a performance of the
    schedule that is on that stage and current on the selected day, so
    the text for an empty stage never appears.  Without the toggle a row
    is empty exactly when no current performance is on its stage. *)
Theorem grid_rows_have_performances (schedule : list performance) (d : string)
    (m : Z) (hideNoStreamStages : bool) (stageName : string) :
  (stageName ∈ stages schedule d m true hideNoStreamStages →
   ∃ p, performanceFor (performancesAtTime schedule d m) stageName = Some p ∧
        p ∈ schedule ∧ stage p = stageName ∧ isCurrent d m p) ∧
  (performanceFor (performancesAtTime schedule d m) stageName = None ↔
   ∀ p, p ∈ schedule → isCurrent d m p → stage p ≠ stageName).
Proof.
  assert (∀ p, p ∈ performancesAtTime schedule d m ↔ p ∈ schedule ∧ isCurrent d m p)
    as Hcur.
  { intros p. unfold performancesAtTime.
    rewrite list_elem_of_filter, Is_true_true, atTime_spec. tauto. }
  split.
  - intros Hin.
    assert (stageName ∈ stage <$> performancesAtTime schedule d m) as Hhas.
    { unfold stages in Hin.
      destruct hideNoStreamStages.
      - destruct (m <? 960); [by apply elem_of_nil in Hin|].
        apply (proj1 (list_elem_of_filter _ _ _)) in Hin as [_ Hin].
        apply (proj1 (list_elem_of_filter _ _ _)) in Hin as [_ Hin].
        by apply (proj1 (list_elem_of_filter _ _ _)) in Hin as [Hin _].
      - by apply (proj1 (list_elem_of_filter _ _ _)) in Hin as [Hin _]. }
    destruct (performanceFor (performancesAtTime schedule d m) stageName)
      as [p|] eqn:Hf.
    + exists p. apply performanceFor_Some in Hf as [Hp Hst].
      apply Hcur in Hp as [Hp Hc]. by split_and!.
    + by apply performanceFor_None in Hf.
  - rewrite performanceFor_None, list_elem_of_fmap. split.
    + intros Hnot p Hp Hc Hst. apply Hnot. exists p. split; [done|].
      by apply Hcur.
    + intros Hall (p & -> & [Hp Hc]%Hcur). by apply (Hall p).
Qed.

Lemma grid_rows_have_performances_witness :
  ∃ p, performanceFor (performancesAtTime demoSchedule "Friday" 1445) "Sahara"
       = Some p ∧
       p ∈ demoSchedule ∧ stage p = "Sahara" ∧ isCurrent "Friday" 1445 p.
Proof.
  apply (proj1 (grid_rows_have_performances demoSchedule
                  "Friday" 1445 true "Sahara")).
  vm_compute. repeat constructor.
Defined.

(** ** More on the stage list *)

Lemma sublist_filter_mono {A} (P : A → Prop) `{!∀ x, Decision (P x)} l1 l2 :
  sublist l1 l2 → sublist (filter P l1) (filter P l2).
Proof.
  induction 1 as [|x l1 l2 Hsub IH|x l1 l2 Hsub IH]; [done|..];
    rewrite ?filter_cons; destruct (decide (P x));
    auto using sublist_skip, sublist_cons.
Qed.

(** X10. Each toggle only removes stages: the list with a toggle on is a
    subsequence of the list with that toggle off, whatever the other
    toggle; with both toggles off the list is every stage of the day. *)
Theorem stages_toggles_only_remove (schedule : list performance) (d : string)
    (m : Z) (other : bool) :
  stages schedule d m false false = stagesForDay schedule d ∧
  sublist (stages schedule d m true other) (stages schedule d m false other) ∧
  sublist (stages schedule d m other true) (stages schedule d m other false).
Proof.
  split_and!.
  - reflexivity.
  - unfold stages. destruct other; [|apply sublist_filter].
    destruct (m <? 960); [done|].
    do 2 apply sublist_filter_mono. apply sublist_filter.
  - unfold stages. set (kept := if other then _ else _).
    destruct (m <? 960); [apply sublist_nil_l|].
    etrans; apply sublist_filter.
Qed.

(** X11. With the hide-no-stream toggle on, Yuma is never listed and the
    resolver returns something other than [undefined] for every stage
    listed.  On a day that names no property of [Object.prototype], as
    on the three festival days, it returns a string, the string is a
    non-empty identifier, and the row carries its livestream link. *)
Theorem listed_stages_have_links (schedule : list performance) (d : string)
    (m : Z) (hideEmptyStages : bool) (stageName : string) :
  stageName ∈ stages schedule d m hideEmptyStages true →
  stageName ≠ "Yuma" ∧
  getLivestreamLink stageName d ≠ JS.Undefined ∧
  (ordinaryKey d →
   ∃ id, getLivestreamLink stageName d = JS.Str id ∧ id ≠ EmptyString ∧
         JS.truthy (getLivestreamLink stageName d) = true) ∧
  Forall ordinaryKey ["Friday"; "Saturday"; "Sunday"].
Proof.
  unfold stages. set (kept := if hideEmptyStages then _ else _).
  destruct (m <? 960); [by intros ?%elem_of_nil|].
  intros [Hlink [Hyuma _]%list_elem_of_filter]%list_elem_of_filter.
  split_and!; [done|done| |repeat constructor].
  intros Hd.
  destruct (getLivestreamLink_ordinary stageName d Hd) as [Hu|[id Hid]]; [done|].
  assert (id ≠ EmptyString) as Hne.
  { apply getLivestreamLink_table in Hid.
    rewrite !elem_of_cons, !elem_of_nil in Hid. intros ->.
    intuition congruence. }
  exists id. split_and!; [done|done|].
  rewrite Hid. cbn. by destruct id.
Qed.

Lemma listed_stages_have_links_witness :
  ∃ id, getLivestreamLink "Sahara" "Friday" = JS.Str id ∧ id ≠ EmptyString ∧
        JS.truthy (getLivestreamLink "Sahara" "Friday") = true.
Proof.
  destruct (listed_stages_have_links demoSchedule "Friday" 1445 true "Sahara")
    as (_ & _ & Hid & _).
  - vm_compute. repeat constructor.
  - apply Hid. reflexivity.
Defined.

(** ** More on the list view *)

Lemma append_assoc (a b c : string) : (a +:+ b) +:+ c = a +:+ b +:+ c.
Proof.
  induction a as [|x a IH]; [done|].
  change (String x a +:+ b) with (String x (a +:+ b)).
  change (String x (a +:+ b) +:+ c) with (String x ((a +:+ b) +:+ c)).
  by rewrite IH.
Qed.

Lemma toLowerCase_app a b :
  JS.toLowerCase (a +:+ b) = JS.toLowerCase a +:+ JS.toLowerCase b.
Proof.
  induction a as [|x a IH]; [done|].
  change (String x a +:+ b) with (String x (a +:+ b)).
  cbn [JS.toLowerCase]. by rewrite IH.
Qed.

Lemma allWhite_app a b : allWhite (a +:+ b) = allWhite a && allWhite b.
Proof.
  induction a as [|x a IH]; [done|].
  change (String x a +:+ b) with (String x (a +:+ b)).
  cbn [allWhite]. by rewrite IH, andb_assoc.
Qed.

Lemma is_white_lower c : JS.is_white (JS.lower c) = JS.is_white c.
Proof. by destruct c as [[] [] [] [] [] [] [] []]. Qed.

Lemma allWhite_toLowerCase s : allWhite (JS.toLowerCase s) = allWhite s.
Proof.
  induction s as [|c s IH]; [done|].
  cbn [JS.toLowerCase allWhite]. by rewrite is_white_lower, IH.
Qed.

Lemma filter_comm {A} (P Q : A → Prop)
    `{!∀ x, Decision (P x), !∀ x, Decision (Q x)} (l : list A) :
  filter P (filter Q l) = filter Q (filter P l).
Proof.
  rewrite !list_filter_filter. apply list_filter_iff. tauto.
Qed.

Lemma sublist_filter_impl {A} (P Q : A → Prop)
    `{!∀ x, Decision (P x), !∀ x, Decision (Q x)} (l : list A) :
  (∀ x, P x → Q x) → sublist (filter P l) (filter Q l).
Proof.
  intros HPQ. rewrite <- (list_filter_filter_l P Q) by done.
  apply sublist_filter.
Qed.

(** X12. Searching the sorted list gives the sorted list of the matches: the
    search filter and the chronological sort can be applied in either
    order, and the search results are in chronological order. *)
Theorem search_commutes_with_sort (schedule : list performance)
    (searchTerm : string) :
  Forall wellFormed schedule →
  filteredChronologicalPerformances (chronologicalPerformances schedule) searchTerm
  = chronologicalPerformances
      (filteredChronologicalPerformances schedule searchTerm) ∧
  StronglySorted chronLe
    (filteredChronologicalPerformances
       (chronologicalPerformances schedule) searchTerm).
Proof.
  intros Hwf. unfold filteredChronologicalPerformances.
  set (P := λ p : performance, Is_true (matchesSearch searchTerm p)).
  assert (StronglySorted chronLe (chronologicalPerformances schedule)) as Hs.
  { by apply (sort_sorted _ wellFormed chronLe
                chronLe_trans chronLe_total byDayThenStart_le). }
  assert (StronglySorted chronLe (filter P (chronologicalPerformances schedule)))
    as HsP.
  { eapply StronglySorted_sublist; [apply sublist_filter|done]. }
  split; [|done].
  apply chronological_unique; [| |done|].
  - rewrite Forall_forall in Hwf. apply Forall_forall.
    intros p [_ Hp]%list_elem_of_filter. by apply Hwf.
  - unfold chronologicalPerformances. by rewrite sort_Permutation.
  - intros p. rewrite (filter_comm _ P), (filter_comm _ P). f_equal.
    unfold chronologicalPerformances.
    apply (sort_stable _ wellFormed chronLe byDayThenStart_le); [done|].
    intros y z. apply sameSlot_chronLe.
Qed.

Lemma search_commutes_with_sort_witness :
  Forall wellFormed demoSchedule ∧
  filteredChronologicalPerformances (chronologicalPerformances demoSchedule) "dj"
  = chronologicalPerformances
      (filteredChronologicalPerformances demoSchedule "dj").
Proof.
  assert (Forall wellFormed demoSchedule) as Hwf
    by (repeat constructor; (by eexists) || (vm_compute; discriminate)).
  split; [exact Hwf|].
  apply (search_commutes_with_sort demoSchedule "dj"). exact Hwf.
Defined.

(** X13. For search terms of ASCII characters, typing on never adds
    results: the matches of a term that contains another term, at either
    end, are among the matches of that term, in the same order. *)
Theorem search_longer_term_narrows (chronological : list performance)
    (before term after : string) :
  asciiOnly before = true → asciiOnly term = true → asciiOnly after = true →
  sublist
    (filteredChronologicalPerformances chronological (before +:+ term +:+ after))
    (filteredChronologicalPerformances chronological term).
Proof.
  intros _ _ _. unfold filteredChronologicalPerformances.
  apply sublist_filter_impl. intros p.
  rewrite !Is_true_true, !matchesSearch_spec.
  rewrite !allWhite_app, !andb_true_iff. unfold containsIgnoringCase.
  intros [(_ & Hw & _)|(pre & post & Hin)]; [by left|right].
  rewrite !toLowerCase_app in Hin.
  exists (pre +:+ JS.toLowerCase before), (JS.toLowerCase after +:+ post).
  by rewrite Hin, !append_assoc.
Qed.

Lemma search_longer_term_narrows_witness :
  sublist
    (filteredChronologicalPerformances demoSchedule ("D" +:+ "J" +:+ " snake"))
    (filteredChronologicalPerformances demoSchedule "J").
Proof.
  apply (search_longer_term_narrows demoSchedule "D" "J" " snake");
    reflexivity.
Defined.

(** X14. The search ignores the case of the term: two terms that differ only
    in letter case give the same results. *)
Theorem search_ignores_term_case (chronological : list performance)
    (term term' : string) :
  JS.toLowerCase term = JS.toLowerCase term' →
  filteredChronologicalPerformances chronological term
  = filteredChronologicalPerformances chronological term'.
Proof.
  intros Hcase. unfold filteredChronologicalPerformances.
  apply list_filter_iff. intros p.
  rewrite !Is_true_true, !matchesSearch_spec. unfold containsIgnoringCase.
  rewrite <- (allWhite_toLowerCase term), <- (allWhite_toLowerCase term').
  by rewrite Hcase.
Qed.

Lemma search_ignores_term_case_witness :
  filteredChronologicalPerformances demoSchedule "Dj SnAkE"
  = filteredChronologicalPerformances demoSchedule "dj snake".
Proof.
  apply (search_ignores_term_case demoSchedule). reflexivity.
Defined.

(** ** The initial time and day *)

(** X16. Whatever the clock reads, the initial slider position is one the
    slider can take, between 720 and 1560 and a multiple of its step 5,
    and the initial day is one of the three festival days. *)
Theorem initial_selection_is_valid (now : zonedNow) :
  let (selectedTime, selectedDay) := setInitialTimeAndDay now in
  720 ≤ selectedTime ≤ 1560 ∧
  selectedTime mod 5 = 0 ∧
  selectedDay ∈ ["Friday"; "Saturday"; "Sunday"].
Proof.
  unfold setInitialTimeAndDay. cbv zeta.
  set (c := if getHours now <? 5 then _ else _).
  split; [|split].
  - destruct (Z.leb_spec (12 * 60) c), (Z.leb_spec c ((24 + 2) * 60));
      cbn [andb]; try lia.
    unfold round_div. Z.to_euclidean_division_equations. lia.
  - destruct ((12 * 60 <=? c) && (c <=? (24 + 2) * 60)); [|done].
    apply Z.mod_mul. lia.
  - repeat match goal with |- context [if ?b then _ else _] => destruct b end;
      rewrite !elem_of_cons; tauto.
Qed.

(** X17. The initial slider position uses the scale of [timeToMinutes]: when
    the normalised minute of the clock time lies in the slider's range
    (12:00 to 02:00 after midnight) the position is that minute rounded
    to the nearest multiple of 5, at most 2 off; otherwise it is 900
    (15:00). *)
Theorem initial_time_rounds_normalised_minute (h1 h2 m1 m2 : nat) (dayOfWeek : Z) :
  (h1 < 10)%nat → (h2 < 10)%nat → (m1 < 10)%nat → (m2 < 10)%nat →
  10 * Z.of_nat h1 + Z.of_nat h2 ≤ 23 → 10 * Z.of_nat m1 + Z.of_nat m2 ≤ 59 →
  let now := ZonedNow (10 * Z.of_nat h1 + Z.of_nat h2)
                      (10 * Z.of_nat m1 + Z.of_nat m2) dayOfWeek in
  ∃ n, timeToMinutes (Some (clock h1 h2 m1 m2)) = JS.Int n ∧
       (720 ≤ n ≤ 1560 → Z.abs (fst (setInitialTimeAndDay now) - n) ≤ 2) ∧
       (¬ (720 ≤ n ≤ 1560) → fst (setInitialTimeAndDay now) = 900).
Proof.
  intros Hh1 Hh2 Hm1 Hm2 HH MM now.
  rewrite timeToMinutes_clock by done. cbv zeta.
  set (hh := 10 * Z.of_nat h1 + Z.of_nat h2) in *.
  set (mm := 10 * Z.of_nat m1 + Z.of_nat m2) in *.
  eexists. split; [reflexivity|].
  unfold setInitialTimeAndDay, now. cbn [getHours getMinutes getDay fst].
  replace (if hh <? 5 then hh * 60 + mm + 24 * 60 else hh * 60 + mm)
    with (if hh <? 5 then (hh + 24) * 60 + mm else hh * 60 + mm)
    by (destruct (hh <? 5); lia).
  set (c := if hh <? 5 then _ else _).
  destruct (Z.leb_spec (12 * 60) c), (Z.leb_spec c ((24 + 2) * 60));
    cbn [andb]; split; try lia.
  intros _. unfold round_div. Z.to_euclidean_division_equations. lia.
Qed.

Lemma initial_time_rounds_normalised_minute_witness :
  ∃ n, timeToMinutes (Some (clock 0 0 1 3)) = JS.Int n ∧
       (720 ≤ n ≤ 1560 →
        Z.abs (fst (setInitialTimeAndDay (ZonedNow 0 13 6)) - n) ≤ 2) ∧
       (¬ (720 ≤ n ≤ 1560) → fst (setInitialTimeAndDay (ZonedNow 0 13 6)) = 900).
Proof.
  apply (initial_time_rounds_normalised_minute 0 0 1 3 6); lia.
Defined.

(** X18. The initial day follows blocks that run from 03:00 to 03:00: before
    03:00 the day is the one chosen at any later hour of the previous
    calendar day; from 03:00 on, Saturday and Sunday choose themselves
    and every other day of the week chooses Friday. *)
Theorem initial_day_blocks (hour minute hour' minute' dayOfWeek : Z) :
  0 ≤ dayOfWeek ≤ 6 →
  (hour < 3 → 3 ≤ hour' →
   snd (setInitialTimeAndDay (ZonedNow hour minute dayOfWeek))
   = snd (setInitialTimeAndDay
            (ZonedNow hour' minute' ((dayOfWeek + 6) mod 7)))) ∧
  (3 ≤ hour →
   snd (setInitialTimeAndDay (ZonedNow hour minute dayOfWeek))
   = if dayOfWeek =? 6 then "Saturday"
     else if dayOfWeek =? 0 then "Sunday" else "Friday").
Proof.
  intros Hd.
  assert (dayOfWeek = 0 ∨ dayOfWeek = 1 ∨ dayOfWeek = 2 ∨ dayOfWeek = 3 ∨
          dayOfWeek = 4 ∨ dayOfWeek = 5 ∨ dayOfWeek = 6) as Hcases by lia.
  unfold setInitialTimeAndDay. cbn [getHours getMinutes getDay snd].
  split.
  - intros Hh Hh'.
    destruct (Z.leb_spec 3 hour), (Z.ltb_spec hour 3); try lia.
    destruct (Z.leb_spec 3 hour'), (Z.ltb_spec hour' 3); try lia.
    destruct Hcases as [->|[->|[->|[->|[->|[->| ->]]]]]]; reflexivity.
  - intros Hh.
    destruct (Z.leb_spec 3 hour), (Z.ltb_spec hour 3); try lia.
    destruct Hcases as [->|[->|[->|[->|[->|[->| ->]]]]]]; reflexivity.
Qed.

Lemma initial_day_blocks_witness :
  snd (setInitialTimeAndDay (ZonedNow 1 30 0))
  = snd (setInitialTimeAndDay (ZonedNow 22 0 ((0 + 6) mod 7))).
Proof.
  apply (proj1 (initial_day_blocks 1 30 22 0 0 ltac:(lia))); lia.
Defined.

(** X19. The version of the page that steps the day back before 05:00 chooses
    the same initial day as [setInitialTimeAndDay] except between 03:00
    and 05:00, where the two differ on Saturday, Sunday and Monday. *)
Theorem initial_day_versions (hour minute dayOfWeek : Z) :
  0 ≤ dayOfWeek ≤ 6 →
  let now := ZonedNow hour minute dayOfWeek in
  (hour < 3 ∨ 5 ≤ hour →
   earlierInitialDay now = snd (setInitialTimeAndDay now)) ∧
  (3 ≤ hour < 5 →
   (earlierInitialDay now ≠ snd (setInitialTimeAndDay now)
    ↔ dayOfWeek = 6 ∨ dayOfWeek = 0 ∨ dayOfWeek = 1)).
Proof.
  intros Hd now.
  assert (dayOfWeek = 0 ∨ dayOfWeek = 1 ∨ dayOfWeek = 2 ∨ dayOfWeek = 3 ∨
          dayOfWeek = 4 ∨ dayOfWeek = 5 ∨ dayOfWeek = 6) as Hcases by lia.
  unfold earlierInitialDay, setInitialTimeAndDay, now.
  cbn [getHours getMinutes getDay snd].
  split; intros Hh;
    destruct (Z.leb_spec 3 hour), (Z.ltb_spec hour 3), (Z.ltb_spec hour 5);
    try lia;
    destruct Hcases as [->|[->|[->|[->|[->|[->| ->]]]]]]; cbn;
    try reflexivity; (split; [intros _; lia|intros _; discriminate])
    || (split; [intros Hne; by destruct Hne|lia]).
Qed.

Lemma initial_day_versions_witness :
  earlierInitialDay (ZonedNow 4 0 6) ≠ snd (setInitialTimeAndDay (ZonedNow 4 0 6)).
Proof.
  apply (proj2 (initial_day_versions 4 0 6 ltac:(lia)) ltac:(lia)). lia.
Defined.

(** ** The theme store *)

Lemma initialTheme_nonempty env : initialTheme env ≠ EmptyString.
Proof.
  unfold initialTheme. destruct env as [b|]; [|done].
  by destruct (localStorage b !! "theme") as [[|c t]|].
Qed.

Lemma loadStore_persisted env : persisted (loadStore env).
Proof.
  unfold persisted, loadStore. destruct env as [b|]; cbn; [|done].
  by rewrite !lookup_insert_eq.
Qed.

Lemma toggleTheme_value st :
  themeValue (toggleTheme st)
  = if String.eqb (themeValue st) "light" then "dark" else "light".
Proof.
  unfold toggleTheme, setTheme.
  destruct (String.eqb_spec (themeValue st) "light") as [Hl|Hl].
  - by rewrite Hl.
  - destruct (String.eqb_spec (themeValue st) "light"); done.
Qed.

Lemma toggleTheme_browser st :
  browser (toggleTheme st) = persist (themeValue (toggleTheme st)) <$> browser st.
Proof.
  unfold toggleTheme, setTheme.
  destruct (String.eqb_spec (themeValue st) "light") as [Hl|Hl].
  - by rewrite Hl.
  - destruct (String.eqb_spec (themeValue st) "light"); done.
Qed.

Lemma toggleTheme_persisted st : persisted (toggleTheme st).
Proof.
  unfold persisted. rewrite toggleTheme_browser.
  destruct (browser st) as [b|]; cbn; [|done].
  by rewrite !lookup_insert_eq.
Qed.

Lemma toggles_reachable env n :
  persisted (Nat.iter n toggleTheme (loadStore env)) ∧
  themeValue (Nat.iter n toggleTheme (loadStore env)) ≠ EmptyString ∧
  (is_Some env → is_Some (browser (Nat.iter n toggleTheme (loadStore env)))) ∧
  ∀ b b', env = Some b →
    browser (Nat.iter n toggleTheme (loadStore env)) = Some b' →
    ∀ k, k ≠ "theme" → localStorage b' !! k = localStorage b !! k.
Proof.
  induction n as [|n (Hp & Hne & Hsome & Hkeys)];
    [cbn [Nat.iter nat_rect]|rewrite !Nat.iter_succ].
  - split_and!.
    + apply loadStore_persisted.
    + apply initialTheme_nonempty.
    + intros [b ->]. by eexists.
    + intros b b' -> [= <-] k Hk. cbn. by rewrite lookup_insert_ne.
  - set (st := Nat.iter n toggleTheme (loadStore env)) in *. split_and!.
    + apply toggleTheme_persisted.
    + rewrite toggleTheme_value. by destruct (String.eqb _ _).
    + intros He. rewrite toggleTheme_browser.
      destruct (Hsome He) as [b ->]. by eexists.
    + intros b b' He. rewrite toggleTheme_browser.
      destruct (browser st) as [b0|] eqn:Hb; [|done].
      intros [= <-] k Hk. cbn. rewrite lookup_insert_ne by done.
      by apply (Hkeys b b0).
Qed.

(** X20. In the browser the theme survives a reload: after the module has
    loaded and the theme has been toggled any number of times, the value
    of the store is under the key [theme] of [localStorage] and in the
    attribute [data-theme], no other key of [localStorage] has changed,
    and loading the page again starts with the same theme. *)
Theorem theme_survives_reload (env : browserEnv) (n : nat) :
  let st := Nat.iter n toggleTheme (loadStore (Some env)) in
  ∃ b, browser st = Some b ∧
       localStorage b !! "theme" = Some (themeValue st) ∧
       attributes b !! "data-theme" = Some (themeValue st) ∧
       (∀ k, k ≠ "theme" → localStorage b !! k = localStorage env !! k) ∧
       themeValue (reload st) = themeValue st.
Proof.
  intros st.
  destruct (toggles_reachable (Some env) n) as (Hp & Hne & Hsome & Hkeys).
  fold st in Hp, Hne, Hsome, Hkeys.
  destruct (Hsome ltac:(by eexists)) as [b Hb].
  unfold persisted in Hp. rewrite Hb in Hp. destruct Hp as [Hls Hattr].
  exists b. split_and!; try done.
  - by apply (Hkeys env b).
  - unfold reload, loadStore, initialTheme. rewrite Hb. cbn. rewrite Hls.
    by destruct (themeValue st).
Qed.

(** X21. A toggle always changes the theme and always lands on light or dark;
    a stored theme that is not empty is adopted as it is when the module
    loads, also when it is neither light nor dark, and the first toggle
    then turns it into light.  From light or dark two toggles bring back
    the whole store, browser included. *)
Theorem toggle_twice_restores (env : option browserEnv) (n : nat) :
  let st := Nat.iter n toggleTheme (loadStore env) in
  themeValue (toggleTheme st) ≠ themeValue st ∧
  themeValue (toggleTheme st) ∈ ["light"; "dark"] ∧
  (themeValue st ≠ "light" → themeValue (toggleTheme st) = "light") ∧
  (themeValue st ∈ ["light"; "dark"] → toggleTheme (toggleTheme st) = st) ∧
  (∀ b t, env = Some b → localStorage b !! "theme" = Some t → t ≠ EmptyString →
     themeValue (loadStore env) = t ∧
     (t ∉ ["light"; "dark"] →
      themeValue (toggleTheme (loadStore env)) = "light")).
Proof.
  intros st.
  destruct (toggles_reachable env n) as (Hp & _). fold st in Hp.
  assert (∀ b t, env = Some b → localStorage b !! "theme" = Some t →
            t ≠ EmptyString → themeValue (loadStore env) = t) as Hload.
  { intros b t -> Ht Hne. cbn. rewrite Ht. by destruct t. }
  split_and!.
  - rewrite toggleTheme_value.
    destruct (String.eqb_spec (themeValue st) "light") as [->|]; [done|].
    congruence.
  - rewrite toggleTheme_value, !elem_of_cons.
    destruct (String.eqb _ _); tauto.
  - intros Hl. rewrite toggleTheme_value.
    by destruct (String.eqb_spec (themeValue st) "light").
  - intros Hin.
    assert (themeValue (toggleTheme (toggleTheme st)) = themeValue st) as Hv.
    { rewrite !toggleTheme_value.
      rewrite !elem_of_cons, elem_of_nil in Hin.
      destruct Hin as [->|[->|[]]]; reflexivity. }
    destruct st as [v br] eqn:Hst.
    destruct (toggleTheme (toggleTheme (ThemeStore v br))) as [v2 br2] eqn:Htt.
    cbn in Hv. subst v2. f_equal.
    assert (br2 = browser (toggleTheme (toggleTheme (ThemeStore v br)))) as ->
      by (by rewrite Htt).
    rewrite toggleTheme_browser, Htt. cbn [themeValue].
    rewrite toggleTheme_browser. cbn [browser].
    destruct br as [b|]; [|done]. cbn.
    unfold persisted in Hp. cbn in Hp. destruct Hp as [Hls Hattr].
    f_equal. unfold persist. cbn.
    rewrite !insert_insert_eq, !insert_id by done. by destruct b.
  - intros b t Hb Ht Hne. split; [by apply (Hload b)|].
    intros Hnot. rewrite toggleTheme_value, (Hload b t) by done.
    destruct (String.eqb_spec t "light") as [->|]; [|done].
    exfalso. apply Hnot. by left.
Qed.

Lemma toggle_twice_restores_witness :
  toggleTheme (toggleTheme (loadStore None)) = loadStore None ∧
  themeValue (loadStore (Some (BrowserEnv (<["theme" := "solarized"]> ∅) ∅)))
  = "solarized".
Proof.
  split.
  - apply (proj1 (proj2 (proj2 (proj2 (toggle_twice_restores None 0))))).
    vm_compute. repeat constructor.
  - apply (proj2 (proj2 (proj2 (proj2
             (toggle_twice_restores
                (Some (BrowserEnv (<["theme" := "solarized"]> ∅) ∅)) 0))))
             (BrowserEnv (<["theme" := "solarized"]> ∅) ∅) "solarized");
      [reflexivity|reflexivity|discriminate].
Defined.

Lemma theme_survives_reload_witness :
  let env := BrowserEnv (<["theme" := "solarized"]> (<["lang" := "en"]> ∅)) ∅ in
  let st := Nat.iter 3 toggleTheme (loadStore (Some env)) in
  ∃ b, browser st = Some b ∧
       localStorage b !! "theme" = Some (themeValue st) ∧
       attributes b !! "data-theme" = Some (themeValue st) ∧
       (∀ k, k ≠ "theme" → localStorage b !! k = localStorage env !! k) ∧
       themeValue (reload st) = themeValue st.
Proof.
  intros env. apply (theme_survives_reload env 3).
Defined.

(** ** Well-formed date strings and the empty list *)

(** X6. For every minute from 0 on, the time part of the date strings is
    "HH:MM:00" with two digits each, HH being the hour modulo 24 and MM
    the minute of the hour; so both date strings are well formed for
    every slider position and every valid performance time. *)
Theorem timeOfDay_two_digits (m : Z) :
  0 ≤ m →
  let hh := (m / 60) mod 24 in
  let mm := m mod 60 in
  timeOfDay (JS.Int m)
  = clock (Z.to_nat (hh / 10)) (Z.to_nat (hh mod 10))
          (Z.to_nat (mm / 10)) (Z.to_nat (mm mod 10)) +:+ ":00".
Proof.
  intros Hm hh mm.
  assert (0 ≤ m / 60) as Hq by (apply Z.div_pos; lia).
  assert (0 ≤ hh < 24) as Hhh by (apply Z.mod_pos_bound; lia).
  assert (0 ≤ mm < 60) as Hmm by (apply Z.mod_pos_bound; lia).
  assert (∀ x, 0 ≤ x < 100 →
            JS.padStart 2 "0" (JS.toString (JS.Int x))
            = String (digit (Z.to_nat (x / 10)))
                (String (digit (Z.to_nat (x mod 10))) EmptyString)) as Hpad.
  { intros x Hx.
    assert (0 ≤ x / 10 < 10) by (split; [apply Z.div_pos|apply Z.div_lt_upper_bound]; lia).
    assert (0 ≤ x mod 10 < 10) by (apply Z.mod_pos_bound; lia).
    rewrite <- pad2_digits by lia. do 3 f_equal.
    rewrite !Z2Nat.id by lia. apply Z.div_mod. lia. }
  unfold timeOfDay. cbn [JS.floor_div JS.rem].
  rewrite !Z.rem_mod_nonneg by lia. fold hh mm.
  by rewrite !Hpad by lia.
Qed.

Lemma timeOfDay_two_digits_witness : timeOfDay (JS.Int 1565) = "02:05:00".
Proof.
  apply (timeOfDay_two_digits 1565). lia.
Defined.

(** X15. The list view has nothing to show exactly when no performance of the
    schedule matches the search; with a blank search term that is only
    when the schedule itself is empty. *)
Theorem list_view_empty (schedule : list performance) (searchTerm : string) :
  (filteredChronologicalPerformances
     (chronologicalPerformances schedule) searchTerm = []
   ↔ ∀ p, p ∈ schedule → matchesSearch searchTerm p = false) ∧
  (allWhite searchTerm = true →
   filteredChronologicalPerformances
     (chronologicalPerformances schedule) searchTerm = []
   ↔ schedule = []).
Proof.
  assert (filteredChronologicalPerformances
            (chronologicalPerformances schedule) searchTerm = []
          ↔ ∀ p, p ∈ schedule → matchesSearch searchTerm p = false) as Hempty.
  { unfold filteredChronologicalPerformances, chronologicalPerformances. split.
    - intros Hnil p Hp.
      destruct (matchesSearch searchTerm p) eqn:Hmatch; [|done].
      assert (p ∈ filter (λ p, Is_true (matchesSearch searchTerm p))
                    (JS.sort byDayThenStart schedule)) as Hin.
      { rewrite list_elem_of_filter, sort_Permutation. by rewrite Hmatch. }
      rewrite Hnil in Hin. by apply elem_of_nil in Hin.
    - intros Hall. apply elem_of_nil_inv. intros p.
      rewrite list_elem_of_filter, sort_Permutation. intros [Hmatch Hp].
      rewrite (Hall p Hp) in Hmatch. done. }
  split; [done|].
  intros Hw. rewrite Hempty. split.
  - intros Hall. apply elem_of_nil_inv. intros p Hp.
    specialize (Hall p Hp).
    assert (matchesSearch searchTerm p = true) as Hm
      by (apply matchesSearch_spec; by left).
    congruence.
  - intros -> p Hp. by apply elem_of_nil in Hp.
Qed.

Lemma list_view_empty_witness :
  filteredChronologicalPerformances (chronologicalPerformances []) "  " = [].
Proof.
  apply (proj2 (list_view_empty [] "  ")); reflexivity.
Defined.
